(** * terminallynx: the Gemini command-line client of [main.py]

    A shallow embedding of [GeminiBrowser.set_model],
    [GeminiBrowser.gemini_query] and the command loop of [main], followed
    by the properties of the retry wrapper and of the loop.

    Conventions of the embedding.
    - A Python [str] is the list of its Unicode code points.
    - The value returned by [response.json()] is a [pyval]; Python's
      subscripting and attribute errors are written out.
    - Effects (HTTP POSTs, sleeps, console output, file writes) are
      threaded through an explicit [world]; the network is an oracle giving
      the outcome of the k-th POST of the process.
    - [console.print] parses its text as console markup and encodes it
      for the terminal.  The texts that the source prints as they stand,
      or with an allow-listed model name, are printed; for a text that
      interpolates external data (a response, an error, a file name, a
      prompt, a reply) the world says whether the print raises, with
      [MarkupError] or [UnicodeEncodeError].
    - A Python call either returns or raises: [res]. *)

From Stdlib Require Import Ascii String DecimalString.
From Stdlib Require Import ZArith NArith Bool Lia List.
Import ListNotations.

Set Warnings "-register-all".

Local Open Scope Z_scope.

(** ** Python strings *)

Module PyStr.

Definition str : Type := list N.

(** An ASCII literal of the source, as code points. *)
Definition lit (s : string) : str :=
  List.map N_of_ascii (list_ascii_of_string s).

Fixpoint eqb (a b : str) : bool :=
  match a, b with
  | [], [] => true
  | x :: a', y :: b' => N.eqb x y && eqb a' b'
  | _, _ => false
  end.

(** [x in l] for a list of strings. *)
Definition mem (x : str) (l : list str) : bool := existsb (eqb x) l.

(** [s.startswith(p)]. *)
Fixpoint startswith (s p : str) : bool :=
  match p, s with
  | [], _ => true
  | y :: p', x :: s' => N.eqb x y && startswith s' p'
  | _ :: _, [] => false
  end.

(** The code points for which [str.isspace] holds; these are the ones
    [strip()] and [split()] remove. *)
Definition isspace (c : N) : bool :=
  (((9 <=? c) && (c <=? 13)) || ((28 <=? c) && (c <=? 32))
   || (c =? 133) || (c =? 160) || (c =? 5760)
   || ((8192 <=? c) && (c <=? 8202))
   || (c =? 8232) || (c =? 8233) || (c =? 8239) || (c =? 8287)
   || (c =? 12288))%N.

Fixpoint lstrip (s : str) : str :=
  match s with
  | c :: t => if isspace c then lstrip t else s
  | [] => []
  end.

Definition rstrip (s : str) : str := rev (lstrip (rev s)).

(** [s.strip()]. *)
Definition strip (s : str) : str := rstrip (lstrip s).

(** The longest prefix without whitespace, and what follows it. *)
Fixpoint word (s : str) : str * str :=
  match s with
  | c :: t => if isspace c then ([], s)
              else let (w, r) := word t in (c :: w, r)
  | [] => ([], [])
  end.

(** [s.split(maxsplit=1)]: whitespace is skipped, one word is cut, the
    whitespace after it is skipped and what is left, if anything, is the
    second part (trailing whitespace included). *)
Definition split1 (s : str) : list str :=
  match lstrip s with
  | [] => []
  | s1 => let (w, r) := word s1 in
          match lstrip r with
          | [] => [w]
          | r1 => [w; r1]
          end
  end.

(** [sep.join(l)]. *)
Fixpoint join (sep : str) (l : list str) : str :=
  match l with
  | [] => []
  | [x] => x
  | x :: t => x ++ sep ++ join sep t
  end.

(** [str(n)] for an [int]. *)
Definition of_Z (n : Z) : str := lit (NilZero.string_of_int (Z.to_int n)).

Section Lower.
(** The lower-casing of a string that has a code point above 127 follows
    the Unicode tables of the interpreter, and depends on the context for
    some letters. *)
Variable lower_non_ascii : str -> str.

Definition is_ascii (c : N) : bool := (c <? 128)%N.

Definition lower_ascii (c : N) : N :=
  if ((65 <=? c) && (c <=? 90))%N then (c + 32)%N else c.

(** [s.lower()]. *)
Definition lower (s : str) : str :=
  if forallb is_ascii s then map lower_ascii s else lower_non_ascii s.
End Lower.

End PyStr.

Import PyStr.

(** ** Python values and exceptions *)

(** What [json.loads] can build.  A [dict] is kept as the list of its
    items; [lookup] returns the first item with the key. *)
Inductive pyval : Type :=
| PNone
| PBool (b : bool)
| PInt (n : Z)
| PFloat (literal : str)
| PStr (s : str)
| PList (l : list pyval)
| PDict (items : list (str * pyval)).

Inductive exn : Type :=
| KeyError
| IndexError
| TypeError
| AttributeError
| ValueError
| OverflowError
| RecursionError
| MarkupError (msg : str)
| UnicodeEncodeError (msg : str)
| RequestException (msg : str).

(** [requests.exceptions.JSONDecodeError], raised by [response.json()]
    (requests 2.27 and later), derives from [InvalidJSONError], itself a
    [RequestException]: the handler of line 60 catches it.  It is kept as
    a [RequestException] with the decoder's message. *)
Definition JSONDecodeError (msg : str) : exn := RequestException msg.

Inductive res (A : Type) : Type :=
| Ret (a : A)
| Raise (e : exn).
Arguments Ret {A} a.
Arguments Raise {A} e.

Definition bind {A B : Type} (r : res A) (k : A -> res B) : res B :=
  match r with
  | Ret a => k a
  | Raise e => Raise e
  end.

Notation "'let*' x ':=' r 'in' k" := (bind r (fun x => k))
  (at level 10, x name, r at level 100, k at level 200).

Inductive subscript : Type :=
| Key (k : str)
| Idx (i : Z).

Fixpoint lookup (k : str) (items : list (str * pyval)) : option pyval :=
  match items with
  | [] => None
  | (k', v) :: t => if PyStr.eqb k k' then Some v else lookup k t
  end.

(** [l[i]] for a sequence of length [n]: the position read, if any. *)
Definition position (n : nat) (i : Z) : option nat :=
  if (0 <=? i) && (i <? Z.of_nat n) then Some (Z.to_nat i)
  else if (- Z.of_nat n <=? i) && (i <? 0) then Some (Z.to_nat (Z.of_nat n + i))
  else None.

(** [v[sub]].  A dict built from JSON has only string keys, so an integer
    subscript is a missing key; a list or a string subscripted by a string,
    and any subscript of [None], a number or a boolean, is a [TypeError]. *)
Definition getitem (v : pyval) (sub : subscript) : res pyval :=
  match v, sub with
  | PDict items, Key k =>
      match lookup k items with
      | Some x => Ret x
      | None => Raise KeyError
      end
  | PDict _, Idx _ => Raise KeyError
  | PList l, Idx i =>
      match position (length l) i with
      | Some p => match nth_error l p with
                  | Some x => Ret x
                  | None => Raise IndexError
                  end
      | None => Raise IndexError
      end
  | PStr s, Idx i =>
      match position (length s) i with
      | Some p => match nth_error s p with
                  | Some c => Ret (PStr [c])
                  | None => Raise IndexError
                  end
      | None => Raise IndexError
      end
  | PList _, Key _ => Raise TypeError
  | PStr _, Key _ => Raise TypeError
  | PNone, _ | PBool _, _ | PInt _, _ | PFloat _, _ => Raise TypeError
  end.

(** [v.strip()]: only a [str] has the method. *)
Definition call_strip (v : pyval) : res str :=
  match v with
  | PStr s => Ret (strip s)
  | _ => Raise AttributeError
  end.

(** ** The world: network, clock, console and files *)

(** The body of a response: JSON with its decoded value, or not JSON,
    with the message of the decoder, or JSON nested deeper than the
    decoder can recurse. *)
Inductive json_result : Type :=
| Decoded (output : pyval)
| NotJSON (msg : str)
| TooDeep.

Record response : Type := {
  status_code : Z;
  text : str;
  json : json_result
}.

(** [response.json()]. *)
Definition response_json (r : response) : res pyval :=
  match json r with
  | Decoded output => Ret output
  | NotJSON msg => Raise (JSONDecodeError msg)
  | TooDeep => Raise RecursionError
  end.

(** What one [requests.post] does: a response of any status, or a
    [RequestException] (connection error, timeout, ...). *)
Inductive outcome : Type :=
| Responded (r : response)
| Failed (msg : str).

(** The arguments of one POST.  A block [{"parts": [{"text": t}]}] of
    ["contents"] is kept as its text [t]; the headers are constant. *)
Record request : Type := {
  url : str;
  contents : list str;
  timeout : Z
}.

Inductive printed : Type :=
| Markup (s : str)
| Panel (body title style : str)
| Table (title : str) (rows : list (str * str))
| Spinner (s : str).

(** Why a [console.print] raises: rich refuses the markup, or the
    terminal cannot encode the text. *)
Inductive print_failure : Type :=
| BadMarkup (msg : str)
| BadEncoding (msg : str).

Definition raise_of (f : print_failure) : exn :=
  match f with
  | BadMarkup msg => MarkupError msg
  | BadEncoding msg => UnicodeEncodeError msg
  end.

(** [str(e)] for the exception of a print. *)
Definition failure_text (f : print_failure) : str :=
  match f with
  | BadMarkup msg | BadEncoding msg => msg
  end.

(** The logs hold the newest entry first.  [print_error] is what
    [console.print] does with a markup text: [None] when it is printed,
    the failure otherwise.  [open_error] is the text of the exception of
    [open(name, "w")], if any; [write_error] that of the writes that
    follow, with what the file is left holding. *)
Record world : Type := {
  net : nat -> outcome;
  print_error : str -> option print_failure;
  open_error : str -> option str;
  write_error : str -> str -> option (str * str);
  posted : list request;
  slept : list Z;
  console : list printed;
  files : list (str * str)
}.

(** [console.print] of a text that parses. *)
Definition console_print (p : printed) (w : world) : world :=
  {| net := net w; print_error := print_error w; open_error := open_error w;
     write_error := write_error w; posted := posted w;
     slept := slept w; console := p :: console w; files := files w |}.

(** The markup that rich printable when it prints [p]. *)
Definition markup_of (p : printed) : str :=
  match p with
  | Markup s => s
  | Panel body _ _ => body
  | Table _ _ => []
  | Spinner s => s
  end.

(** [console.print] of a text with external data in it: the failure when
    the print raises, and nothing is printed then. *)
Definition rich_print (p : printed) (w : world)
  : option print_failure * world :=
  match print_error w (markup_of p) with
  | Some f => (Some f, w)
  | None => (None, console_print p w)
  end.

(** [requests.post(...)]: the oracle answers the k-th POST. *)
Definition requests_post (rq : request) (w : world) : outcome * world :=
  (net w (length (posted w)),
   {| net := net w; print_error := print_error w; open_error := open_error w;
      write_error := write_error w; posted := rq :: posted w;
      slept := slept w; console := console w; files := files w |}).

(** The largest number of seconds that fits the 64-bit count of
    nanoseconds of the C clock. *)
Definition sleep_max : Z := 9223372036.

(** [time.sleep(d)] for an [int]: [OverflowError] outside the range of the
    C clock, [ValueError] for a negative length. *)
Definition time_sleep (d : Z) (w : world) : res unit * world :=
  if (d <? - sleep_max) || (sleep_max <? d) then (Raise OverflowError, w)
  else if d <? 0 then (Raise ValueError, w)
  else (Ret tt,
        {| net := net w; print_error := print_error w;
           open_error := open_error w; write_error := write_error w;
           posted := posted w; slept := d :: slept w; console := console w;
           files := files w |}).

Definition with_files (w : world) (f : list (str * str)) : world :=
  {| net := net w; print_error := print_error w; open_error := open_error w;
     write_error := write_error w; posted := posted w; slept := slept w;
     console := console w; files := f |}.

(** [with open(filename, "w") as f:] and the writes of [content] in the
    block.  When the file cannot be opened it is left alone; when a write
    fails the file has been created or truncated and holds what the world
    says.  The text of the exception is returned. *)
Definition write_file (filename content : str) (w : world)
  : option str * world :=
  match open_error w filename with
  | Some err => (Some err, w)
  | None =>
      match write_error w filename content with
      | Some (kept, err) => (Some err, with_files w ((filename, kept) :: files w))
      | None => (None, with_files w ((filename, content) :: files w))
      end
  end.

(** ** GeminiBrowser *)

Record GeminiBrowser : Type := {
  api_key : str;
  model : str;
  system_prompt : option str
}.

(** [__init__], given the value of the environment variable; [None] is
    [sys.exit(1)]. *)
Definition GeminiBrowser_init (env_key : option str) (w : world)
  : option GeminiBrowser * world :=
  match env_key with
  | Some (c :: k) =>
      (Some {| api_key := c :: k; model := lit "gemini-1.5-flash";
               system_prompt := None |}, w)
  | _ => (None,
          console_print (Markup (lit "[bold red]API key not set in .env[/bold red]")) w)
  end.

Definition supported_models : list str :=
  [lit "gemini-1.5-flash"; lit "gemini-1.5-pro"].

Definition unsupported_message : str :=
  lit "[red]Unsupported model.[/red] Available models: "
  ++ join (lit ", ") supported_models.

Definition set_model (self : GeminiBrowser) (model_name : str) (w : world)
  : GeminiBrowser * world :=
  if mem model_name supported_models
  then ({| api_key := api_key self; model := model_name;
           system_prompt := system_prompt self |},
        console_print
          (Markup (lit "[cyan]Switched to model:[/cyan] [bold]"
                   ++ model_name ++ lit "[/bold]")) w)
  else (self, console_print (Markup unsupported_message) w).

(** The reply for a body without the expected field: U+26A0 U+FE0F and
    the text. *)
Definition sentinel : str :=
  [9888%N; 65039%N] ++ lit " No valid response from Gemini.".

(** [output["candidates"][0]["content"]["parts"][0]["text"].strip()]. *)
Definition extract_text (output : pyval) : res str :=
  let* a := getitem output (Key (lit "candidates")) in
  let* b := getitem a (Idx 0) in
  let* c := getitem b (Key (lit "content")) in
  let* d := getitem c (Key (lit "parts")) in
  let* e := getitem d (Idx 0) in
  let* f := getitem e (Key (lit "text")) in
  call_strip f.

Definition api_url (self : GeminiBrowser) : str :=
  lit "https://generativelanguage.googleapis.com/v1beta/models/"
  ++ model self ++ lit ":generateContent?key=" ++ api_key self.

Definition build_contents (self : GeminiBrowser) (prompt : str) : list str :=
  match system_prompt self with
  | Some (c :: sp) => [lit "[SYSTEM]: " ++ c :: sp; prompt]
  | _ => [prompt]
  end.

(** The lines printed for a failed attempt (lines 55 and 61). *)
Definition error_line (r : response) : str :=
  lit "[bold red]Error " ++ of_Z (status_code r) ++ lit "[/bold red]: " ++ text r.

Definition failure_line (msg : str) : str :=
  lit "[bold red]Request failed:[/bold red] " ++ msg.

Section Attempts.
Variables (retries delay : Z) (rq : request).

(** The [except requests.exceptions.RequestException as e] clause (lines
    60-65) at attempt number [attempt], for an exception [e] raised in the
    [try] block; [continue_] is the rest of the [for] loop.  Any other
    exception leaves the function, and so does one raised in the
    clause. *)
Definition except_RequestException (attempt : Z) (e : exn)
    (continue_ : world -> res (option str) * world) (w : world)
  : res (option str) * world :=
  match e with
  | RequestException msg =>
      match rich_print (Markup (failure_line msg)) w with
      | (Some f, w) => (Raise (raise_of f), w)
      | (None, w) =>
          if attempt <? retries then
            match time_sleep delay w with
            | (Ret _, w) => continue_ w
            | (Raise e', w) => (Raise e', w)
            end
          else (Ret None, w)
      end
  | _ => (Raise e, w)
  end.

(** The [for attempt in range(1, retries + 1)] loop (lines 45-65);
    [fuel] is the number of values of [attempt] still to come.  When the
    range is exhausted the function falls off its end and returns
    [None].  The exception of the print of line 55 is not a
    [RequestException]: it leaves the function. *)
Fixpoint attempts (fuel : nat) (attempt : Z) (w : world)
  : res (option str) * world :=
  match fuel with
  | O => (Ret None, w)
  | S fuel' =>
      let continue_ := attempts fuel' (attempt + 1) in
      let (o, w) := requests_post rq w in
      match o with
      | Failed msg =>
          except_RequestException attempt (RequestException msg) continue_ w
      | Responded r =>
          if status_code r =? 200 then
            match response_json r with
            | Raise e => except_RequestException attempt e continue_ w
            | Ret output =>
                match extract_text output with
                | Ret s => (Ret (Some s), w)
                | Raise KeyError | Raise IndexError => (Ret (Some sentinel), w)
                | Raise e => except_RequestException attempt e continue_ w
                end
            end
          else
            match rich_print (Markup (error_line r)) w with
            | (Some f, w) => (Raise (raise_of f), w)
            | (None, w) =>
                if (500 <=? status_code r) && (status_code r <? 600)
                   && (attempt <? retries)
                then
                  match time_sleep delay w with
                  | (Ret _, w) => continue_ w
                  | (Raise e, w) => except_RequestException attempt e continue_ w
                  end
                else (Ret None, w)
            end
      end
  end.
End Attempts.

Definition gemini_query (self : GeminiBrowser) (prompt : str)
    (retries delay : Z) (w : world) : res (option str) * world :=
  let rq := {| url := api_url self;
               contents := build_contents self prompt;
               timeout := 30 |} in
  attempts retries delay rq (Z.to_nat retries) 1 w.

(** The defaults of the signature: [retries=3, delay=2]. *)
Definition default_retries : Z := 3.
Definition default_delay : Z := 2.

(** ** The command loop *)

Record session : Type := {
  bot : GeminiBrowser;
  last_reply : option str;
  history : list (str * str)
}.

(** What one iteration of [while True] did. *)
Inductive event : Type :=
| Quit
| Command
| Exchange (prompt : str) (reply : option str)
| Crashed (e : exn).

(** The branch of the [if]/[elif] chain (lines 81-152) an input takes. *)
Inductive branch : Type :=
| BExit | BHelp | BModel | BSave | BExport | BHistory | BSystem | BPrompt.

Definition nl : str := [10%N].

Definition help_table : printed :=
  Table (lit "Available Commands")
    [(lit "/model NAME", lit "Switch model (gemini-1.5-flash / gemini-1.5-pro)");
     (lit "/save file.txt", lit "Save last reply to file");
     (lit "/export file.txt", lit "Export full conversation to file");
     (lit "/history", lit "Show past conversation");
     (lit "/system TEXT", lit "Set a system instruction/persona");
     (lit "/help", lit "Show this help menu");
     (lit "exit/quit", lit "Exit the program")].

(** What [/export] writes: one block per exchange, oldest first. *)
Definition export_text (h : list (str * str)) : str :=
  flat_map (fun qr => lit "USER: " ++ fst qr ++ nl
                      ++ lit "GEMINI: " ++ snd qr ++ nl ++ nl) h.

(** The panel of [/history] for the exchange number [i]. *)
Definition exchange_panel (i : Z) (q r : str) : printed :=
  Panel (lit "[bold yellow]You:[/bold yellow] " ++ q ++ nl ++ nl
         ++ lit "[bold green]Gemini:[/bold green] " ++ r)
        (lit "Exchange " ++ of_Z i) (lit "magenta").

(** The panels of [/history], numbered from [i]: the loop of lines
    139-142, which an exception leaves at the panel that rich refuses. *)
Fixpoint history_panels (i : Z) (h : list (str * str)) (w : world)
  : option print_failure * world :=
  match h with
  | [] => (None, w)
  | (q, r) :: t =>
      match rich_print (exchange_panel i q r) w with
      | (Some f, w) => (Some f, w)
      | (None, w) => history_panels (i + 1) t w
      end
  end.

Definition thinking : printed := Spinner (lit "[bold cyan]Thinking...[/bold cyan]").

Definition with_bot (s : session) (b : GeminiBrowser) : session :=
  {| bot := b; last_reply := last_reply s; history := history s |}.

(** A [console.print] outside any [try]: the iteration goes on as a
    [Command], or the exception ends [main]. *)
Definition print_or_crash (p : printed) (s : session) (w : world)
  : event * session * world :=
  match rich_print p w with
  | (None, w) => (Command, s, w)
  | (Some f, w) => (Crashed (raise_of f), s, w)
  end.

(** The [try] block of [/save] and [/export] (lines 110-113, 125-129):
    the file is written, then the confirmation is printed; the text of
    the exception that leaves the block, if any. *)
Definition write_and_confirm (filename content : str) (done : printed)
    (w : world) : option str * world :=
  match write_file filename content w with
  | (Some err, w) => (Some err, w)
  | (None, w) =>
      match rich_print done w with
      | (Some f, w) => (Some (failure_text f), w)
      | (None, w) => (None, w)
      end
  end.

(** The [try]/[except Exception as e] of [/save] and [/export]: the
    handler prints the text of the exception after [failed]. *)
Definition write_or_report (filename content : str) (done : printed)
    (failed : str) (s : session) (w : world) : event * session * world :=
  match write_and_confirm filename content done w with
  | (None, w) => (Command, s, w)
  | (Some err, w) => print_or_crash (Markup (failed ++ err)) s w
  end.

Section Loop.
Variable lower_non_ascii : str -> str.

Definition dispatch (user_input : str) : branch :=
  if mem (lower lower_non_ascii user_input) [lit "exit"; lit "quit"] then BExit
  else if startswith user_input (lit "/help") then BHelp
  else if startswith user_input (lit "/model") then BModel
  else if startswith user_input (lit "/save") then BSave
  else if startswith user_input (lit "/export") then BExport
  else if startswith user_input (lit "/history") then BHistory
  else if startswith user_input (lit "/system") then BSystem
  else BPrompt.

(** One iteration of the loop (lines 79-159) on the line returned by
    [Prompt.ask]. *)
Definition main_iter (line : str) (s : session) (w : world)
  : event * session * world :=
  let user_input := strip line in
  match dispatch user_input with
  | BExit =>
      (Quit, s, console_print (Markup (lit "[bold red]Goodbye![/bold red]")) w)
  | BHelp => (Command, s, console_print help_table w)
  | BModel =>
      match split1 user_input with
      | [_; a] => let (b, w) := set_model (bot s) (strip a) w in
                  (Command, with_bot s b, w)
      | _ => (Command, s,
              console_print (Markup (lit "[yellow]Usage:[/yellow] /model MODEL_NAME")) w)
      end
  | BSave =>
      match split1 user_input with
      | [_; a] =>
          let filename := strip a in
          match last_reply s with
          | Some (c :: r) =>
              write_or_report filename (c :: r)
                (Markup (lit "[bold green]Reply saved to " ++ filename
                         ++ lit "[/bold green]"))
                (lit "[bold red]Error saving file:[/bold red] ") s w
          | _ => (Command, s,
                  console_print (Markup (lit "[yellow]No reply to save yet.[/yellow]")) w)
          end
      | _ => (Command, s,
              console_print (Markup (lit "[yellow]Usage:[/yellow] /save filename.txt")) w)
      end
  | BExport =>
      match split1 user_input with
      | [_; a] =>
          let filename := strip a in
          write_or_report filename (export_text (history s))
            (Markup (lit "[bold green]Conversation exported to "
                     ++ filename ++ lit "[/bold green]"))
            (lit "[bold red]Error exporting file:[/bold red] ") s w
      | _ => (Command, s,
              console_print (Markup (lit "[yellow]Usage:[/yellow] /export filename.txt")) w)
      end
  | BHistory =>
      match history s with
      | [] => (Command, s,
               console_print (Markup (lit "[yellow]No history yet.[/yellow]")) w)
      | h => match history_panels 1 h w with
             | (None, w) => (Command, s, w)
             | (Some f, w) => (Crashed (raise_of f), s, w)
             end
      end
  | BSystem =>
      match split1 user_input with
      | [_; a] =>
          let sp := strip a in
          print_or_crash
            (Markup (lit "[cyan]System instruction set:[/cyan] " ++ sp))
            (with_bot s {| api_key := api_key (bot s); model := model (bot s);
                           system_prompt := Some sp |}) w
      | _ => (Command, s,
              console_print (Markup (lit "[yellow]Usage:[/yellow] /system TEXT")) w)
      end
  | BPrompt =>
      let w := console_print thinking w in
      match gemini_query (bot s) user_input default_retries default_delay w with
      | (Raise e, w) => (Crashed e, s, w)
      | (Ret reply, w) =>
          match reply with
          | Some (c :: r) =>
              match rich_print (Panel (c :: r) (lit "Gemini Reply") (lit "green")) w with
              | (Some f, w) => (Crashed (raise_of f), s, w)
              | (None, w) =>
                  (Exchange user_input reply,
                   {| bot := bot s; last_reply := Some (c :: r);
                      history := history s ++ [(user_input, c :: r)] |}, w)
              end
          | _ => (Exchange user_input reply, s, w)
          end
      end
  end.

(** The loop on the lines typed so far: it stops at [exit]/[quit] and
    when an exception leaves an iteration. *)
Fixpoint main_loop (lines : list str) (s : session) (w : world)
  : list event * session * world :=
  match lines with
  | [] => ([], s, w)
  | line :: rest =>
      let '(ev, s1, w1) := main_iter line s w in
      match ev with
      | Quit | Crashed _ => ([ev], s1, w1)
      | _ => let '(evs, s2, w2) := main_loop rest s1 w1 in (ev :: evs, s2, w2)
      end
  end.

Definition welcome : printed :=
  Panel (lit "[bold cyan]Welcome to the Gemini CLI Browser[/bold cyan]" ++ nl
         ++ lit "Type [yellow]exit[/yellow] to quit" ++ nl
         ++ lit "Type [yellow]/help[/yellow] for commands")
        (lit "Info") (lit "blue").

Definition initial (b : GeminiBrowser) : session :=
  {| bot := b; last_reply := None; history := [] |}.

(** [main()]: [None] when the key is missing and the process exits. *)
Definition main (env_key : option str) (lines : list str) (w : world)
  : option (list event * session) * world :=
  match GeminiBrowser_init env_key w with
  | (None, w) => (None, w)
  | (Some b, w) =>
      let '(evs, s, w) := main_loop lines (initial b) (console_print welcome w) in
      (Some (evs, s), w)
  end.
End Loop.

(** ** Vocabulary of the properties *)

(** The outcome of the [k]-th POST (from 0) of a call started in [w]. *)
Definition attempt_outcome (w : world) (k : nat) : outcome :=
  net w (length (posted w) + k)%nat.

Definition client_error (r : response) : bool :=
  (400 <=? status_code r) && (status_code r <? 500).

Definition server_error (r : response) : bool :=
  (500 <=? status_code r) && (status_code r <? 600).

(** A server-error status or a transport failure. *)
Definition transient (o : outcome) : bool :=
  match o with
  | Failed _ => true
  | Responded r => server_error r
  end.

(** A 200 response whose body is not JSON at all. *)
Definition unparseable (o : outcome) : bool :=
  match o with
  | Responded {| status_code := c; json := NotJSON _ |} => c =? 200
  | _ => false
  end.

(** The outcomes after which the code goes on to the next attempt, when
    one is left. *)
Definition retried (o : outcome) : bool := transient o || unparseable o.

(** The line that the code prints for an outcome from which it does not
    return a reply, if any. *)
Definition printed_line (o : outcome) : option str :=
  match o with
  | Failed msg => Some (failure_line msg)
  | Responded r =>
      if status_code r =? 200 then
        match json r with
        | NotJSON msg => Some (failure_line msg)
        | _ => None
        end
      else Some (error_line r)
  end.

(** The console of [w] prints the text [l]. *)
Definition printable (w : world) (l : str) : bool :=
  match print_error w l with
  | None => true
  | Some _ => false
  end.

(** The console of [w] accepts the line printed for [o]. *)
Definition accepted (w : world) (o : outcome) : bool :=
  match printed_line o with
  | Some l => printable w l
  | None => true
  end.

(** An outcome after which the code goes on to the next attempt, when one
    is left and the delay can be slept: it is retried and its line is
    printed. *)
Definition passed (w : world) (o : outcome) : bool := retried o && accepted w o.

(** A delay that [time.sleep] sleeps. *)
Definition sleepable (d : Z) : Prop := 0 <= d <= sleep_max.

(** The number of POSTs issued between two worlds. *)
Definition posts_between (w w' : world) : Z :=
  Z.of_nat (length (posted w')) - Z.of_nat (length (posted w)).

(** The response shape of the wire protocol, read as JSON: member of an
    object, element of an array. *)
Definition member (k : str) (v : pyval) : option pyval :=
  match v with
  | PDict items => lookup k items
  | _ => None
  end.

Definition element (i : nat) (v : pyval) : option pyval :=
  match v with
  | PList l => nth_error l i
  | _ => None
  end.

Definition and_then {A B : Type} (o : option A) (f : A -> option B) : option B :=
  match o with
  | Some a => f a
  | None => None
  end.

(** The value at [candidates[0].content.parts[0].text], if the body has
    it. *)
Definition nested_field (output : pyval) : option pyval :=
  and_then (member (lit "candidates") output) (fun a =>
  and_then (element 0 a) (fun b =>
  and_then (member (lit "content") b) (fun c =>
  and_then (member (lit "parts") c) (fun d =>
  and_then (element 0 d) (fun e =>
  member (lit "text") e))))).

(** A well-formed body: the nested field is there and is a string. *)
Definition text_field (output : pyval) : option str :=
  match nested_field output with
  | Some (PStr t) => Some t
  | _ => None
  end.

(** An exchange the loop recorded: the reply is a non-empty string. *)
Definition recorded (ev : event) : bool :=
  match ev with
  | Exchange _ (Some (_ :: _)) => true
  | _ => false
  end.

(** An exchange for which the request client returned a reply, empty or
    not. *)
Definition replied (ev : event) : bool :=
  match ev with
  | Exchange _ (Some _) => true
  | _ => false
  end.

Definition count (p : event -> bool) (evs : list event) : nat :=
  length (filter p evs).

(** The exceptions of a subscript chain, none of which the handler of
    line 60 catches. *)
Definition subscript_error (e : exn) : bool :=
  match e with
  | KeyError | IndexError | TypeError | AttributeError => true
  | _ => false
  end.


(** The invariant of the loop, for the events [evs] of the iterations so
    far. *)
Definition invariant (evs : list event) (s : session) : Prop :=
  length (history s) = count recorded evs /\
  (last_reply s <> None -> (1 <= count recorded evs)%nat).

(** The exchanges that a list of events recorded, oldest first. *)
Fixpoint exchanges_of (evs : list event) : list (str * str) :=
  match evs with
  | [] => []
  | Exchange q (Some (c :: r)) :: t => (q, c :: r) :: exchanges_of t
  | _ :: t => exchanges_of t
  end.

(** The reply of the latest exchange of a history. *)
Definition latest_reply (h : list (str * str)) : option str :=
  match rev h with
  | [] => None
  | (_, r) :: _ => Some r
  end.

(** The panels for a history, numbered from [i], in the order they are
    printed. *)
Fixpoint numbered_panels (i : Z) (h : list (str * str)) : list printed :=
  match h with
  | [] => []
  | (q, r) :: t => exchange_panel i q r :: numbered_panels (i + 1) t
  end.

(** A string without whitespace. *)
Definition no_space (s : str) : bool := forallb (fun c => negb (isspace c)) s.

(** The browser of a process started with the key [key]: the active model
    is on the allow-list and the system instruction, when set, is not
    empty. *)
Definition well_formed_bot (key : str) (b : GeminiBrowser) : Prop :=
  api_key b = key /\ In (model b) supported_models /\ system_prompt b <> Some [].

(** A request to the endpoint of a supported model, with the key [key]. *)
Definition targets (key : str) (rq : request) : Prop :=
  exists m, In m supported_models /\
            url rq = lit "https://generativelanguage.googleapis.com/v1beta/models/"
                     ++ m ++ lit ":generateContent?key=" ++ key /\
            timeout rq = 30.

(** The parts of the world that the commands without files leave alone. *)
Definition same_network (w w' : world) : Prop :=
  net w' = net w /\ posted w' = posted w /\ slept w' = slept w.

(** What the handlers of [/save] and [/export] print before the text of
    the exception. *)
Definition write_failure (b : branch) : str :=
  match b with
  | BSave => lit "[bold red]Error saving file:[/bold red] "
  | BExport => lit "[bold red]Error exporting file:[/bold red] "
  | _ => []
  end.

(** The commands that need an argument, and their usage hints. *)
Definition takes_argument (b : branch) : bool :=
  match b with
  | BModel | BSave | BExport | BSystem => true
  | _ => false
  end.

Definition usage (b : branch) : str :=
  match b with
  | BModel => lit "/model MODEL_NAME"
  | BSave => lit "/save filename.txt"
  | BExport => lit "/export filename.txt"
  | BSystem => lit "/system TEXT"
  | _ => []
  end.

(** ** Fixtures *)

Module Fixture.

Definition ok_body (t : str) : pyval :=
  PDict [(lit "candidates",
          PList [PDict [(lit "content",
                         PDict [(lit "parts",
                                 PList [PDict [(lit "text", PStr t)]])])]])].

Definition http (code : Z) (j : json_result) : outcome :=
  Responded {| status_code := code; text := lit "body"; json := j |}.

(** A world at the start of a process: nothing posted, slept, printed or
    written yet; every file opens and is written in full, and the console
    accepts what it is given, as rich does for the texts of the examples
    that use it. *)
Definition fresh (f : nat -> outcome) : world :=
  {| net := f; print_error := fun _ => None; open_error := fun _ => None;
     write_error := fun _ _ => None; posted := []; slept := [];
     console := []; files := [] |}.

(** The position of the first occurrence of [p] in [s], from [i]. *)
Fixpoint find_from (i : Z) (p s : str) : option Z :=
  if startswith s p then Some i
  else match s with
       | [] => None
       | _ :: t => find_from (i + 1) p t
       end.

(** rich on a text whose only closing tag without an opening one is
    [tag]: the [MarkupError] names the tag and its position. *)
Definition unmatched (tag : str) (s : str) : option print_failure :=
  match find_from 0 tag s with
  | Some i =>
      Some (BadMarkup (lit "closing tag '" ++ tag ++ lit "' at position "
                       ++ of_Z i ++ lit " doesn't match any open tag"))
  | None => None
  end.

(** The same world with a console that refuses the closing tag [[/x]]. *)
Definition strict (f : nat -> outcome) : world :=
  {| net := f; print_error := unmatched (lit "[/x]");
     open_error := fun _ => None; write_error := fun _ _ => None;
     posted := []; slept := []; console := []; files := [] |}.

(** A response with the text [t]. *)
Definition http_text (code : Z) (t : str) : outcome :=
  Responded {| status_code := code; text := t; json := NotJSON [] |}.

Definition flash : GeminiBrowser :=
  {| api_key := lit "KEY"; model := lit "gemini-1.5-flash";
     system_prompt := None |}.

(** A lower-casing that leaves the strings with a code point above 127
    alone. *)
Definition ascii_only (s : str) : str := s.

(** The k-th POST gets the k-th outcome of [l], later ones get [d]. *)
Definition script (l : list outcome) (d : outcome) : nat -> outcome :=
  fun k => nth k l d.

End Fixture.

(** ** The model on concrete inputs *)

Example strip_blanks : strip (lit "  a b  ") = lit "a b".
Proof. reflexivity. Qed.

Example split1_model :
  split1 (lit "/model   gemini-1.5-pro x ") = [lit "/model"; lit "gemini-1.5-pro x "].
Proof. reflexivity. Qed.

Example split1_alone : split1 (lit "/save") = [lit "/save"].
Proof. reflexivity. Qed.

Example dispatch_exit : dispatch Fixture.ascii_only (lit "QuIt") = BExit.
Proof. reflexivity. Qed.

Example dispatch_history :
  dispatch Fixture.ascii_only (lit "/history") = BHistory.
Proof. reflexivity. Qed.

Example status_text : of_Z 503 = lit "503".
Proof. reflexivity. Qed.

Example extract_ok :
  extract_text (Fixture.ok_body (lit " pong ")) = Ret (lit "pong").
Proof. reflexivity. Qed.

Example extract_no_candidates : extract_text (PDict []) = Raise KeyError.
Proof. reflexivity. Qed.

Example extract_empty_candidates :
  extract_text (PDict [(lit "candidates", PList [])]) = Raise IndexError.
Proof. reflexivity. Qed.

(** A session: the model is switched, a prompt is answered, the user
    quits. *)
Example session_run :
  let w := Fixture.fresh (fun _ => Fixture.http 200
                            (Decoded (Fixture.ok_body (lit "pong")))) in
  match main Fixture.ascii_only (Some (lit "KEY"))
          [lit "/model gemini-1.5-pro"; lit " ping "; lit "exit"; lit "more"] w with
  | (Some (evs, s), w') =>
      evs = [Command; Exchange (lit "ping") (Some (lit "pong")); Quit] /\
      model (bot s) = lit "gemini-1.5-pro" /\
      last_reply s = Some (lit "pong") /\
      history s = [(lit "ping", lit "pong")] /\
      length (posted w') = 1%nat
  | _ => False
  end.
Proof. repeat split. Qed.

(** ** Strings and subscripts *)

Lemma eqb_eq (a b : str) : PyStr.eqb a b = true <-> a = b.
Proof.
  revert b; induction a as [|x a IH]; intros [|y b]; simpl;
    try (split; [discriminate | congruence]); try tauto.
  rewrite andb_true_iff, N.eqb_eq, IH.
  split; [intros [-> ->]; reflexivity | intros E; injection E; auto].
Qed.

Lemma mem_In (x : str) (l : list str) : mem x l = true <-> In x l.
Proof.
  unfold mem. rewrite existsb_exists. split.
  - intros [y [Hy E]]. apply eqb_eq in E. subst; assumption.
  - intros H. exists x. split; [assumption | apply eqb_eq; reflexivity].
Qed.

Lemma getitem_raises v sub e :
  getitem v sub = Raise e -> subscript_error e = true.
Proof.
  destruct v, sub; simpl; try (intros E; injection E as <-; reflexivity).
  - destruct (position _ _); [destruct (nth_error _ _)|];
      intros E; try discriminate; injection E as <-; reflexivity.
  - destruct (position _ _); [destruct (nth_error _ _)|];
      intros E; try discriminate; injection E as <-; reflexivity.
  - destruct (lookup _ _); intros E; try discriminate;
      injection E as <-; reflexivity.
Qed.

Lemma bind_raises {A B} (r : res A) (k : A -> res B) e :
  bind r k = Raise e -> r = Raise e \/ exists a, r = Ret a /\ k a = Raise e.
Proof. destruct r; simpl; intros E; [right; eauto | left; congruence]. Qed.

Lemma extract_text_raises output e :
  extract_text output = Raise e -> subscript_error e = true.
Proof.
  unfold extract_text. intros E.
  repeat (apply bind_raises in E;
          destruct E as [E | [? [_ E]]];
          [apply getitem_raises in E; exact E|]).
  match type of E with call_strip ?v = _ => destruct v end;
    simpl in E; try discriminate; injection E as <-; reflexivity.
Qed.

(** ** The retry loop, one attempt at a time *)








(** The line of an outcome that is retried or rejected, and what its
    acceptance says of [rich_print]. *)
Lemma accepted_print w l w' :
  printable w l = true -> print_error w' = print_error w ->
  rich_print (Markup l) w' = (None, console_print (Markup l) w').
Proof.
  unfold printable, rich_print. simpl. intros H ->.
  destruct (print_error w l); [discriminate | reflexivity].
Qed.

Section AttemptLemmas.
Variables (retries delay : Z) (rq : request).
Hypothesis delay_ok : sleepable delay.

Let run := attempts retries delay rq.




End AttemptLemmas.

(** A 200 response with a JSON body: the call ends with what the
    extraction gives. *)
Lemma attempts_ok retries delay rq fuel attempt w r output :
  attempt_outcome w 0 = Responded r ->
  status_code r = 200 -> json r = Decoded output ->
  attempts retries delay rq (S fuel) attempt w =
    (match extract_text output with
     | Ret s => Ret (Some s)
     | Raise KeyError | Raise IndexError => Ret (Some sentinel)
     | Raise e => Raise e
     end, snd (requests_post rq w)).
Proof.
  unfold attempt_outcome. rewrite Nat.add_0_r.
  intros E Hc Hj. simpl. unfold response_json. rewrite E, Hc, Hj. simpl.
  destruct (extract_text output) as [s|e] eqn:X; [reflexivity|].
  destruct e; try reflexivity.
  exfalso. apply extract_text_raises in X. simpl in X. discriminate.
Qed.

(** Every way through one attempt either ends the loop after its POST
    or goes on, after a sleep, in a world with that one POST more. *)
Lemma attempts_step retries delay rq fuel attempt w
    (P : res (option str) * world -> Prop) :
  (forall x w1, posted w1 = rq :: posted w -> slept w1 = slept w ->
                net w1 = net w -> files w1 = files w ->
                P (x, w1)) ->
  (forall w1, posted w1 = rq :: posted w -> slept w1 = delay :: slept w ->
              net w1 = net w -> files w1 = files w ->
              (attempt <? retries) = true ->
              P (attempts retries delay rq fuel (attempt + 1) w1)) ->
  P (attempts retries delay rq (S fuel) attempt w).
Proof.
  intros Stop Go. cbn [attempts requests_post].
  unfold except_RequestException, rich_print, time_sleep, response_json,
    JSONDecodeError, console_print.
  cbn [markup_of print_error].
  destruct (net w (length (posted w))) as [r|msg];
    [destruct (status_code r =? 200);
     [destruct (json r) as [output|m|];
      [destruct (extract_text output) as [t|[]]|..]|]|];
    repeat match goal with
           | |- context [match print_error w ?l with _ => _ end] =>
               destruct (print_error w l)
           | |- context [if ?b then _ else _] => destruct b eqn:?
           end;
    first [ apply Stop; reflexivity
          | apply Go; first [ reflexivity
                            | match goal with
                              | H : _ && (attempt <? retries) = true |- _ =>
                                  apply andb_true_iff in H; apply H
                              end ] ].
Qed.

(** The POSTs of the loop are all of the one request, at least one when
    the range is not empty and at most one per attempt. *)
Lemma attempts_posted retries delay rq fuel : forall attempt w,
  exists n, posted (snd (attempts retries delay rq fuel attempt w))
            = repeat rq n ++ posted w
            /\ (Nat.min 1 fuel <= n <= fuel)%nat.
Proof.
  induction fuel as [|fuel IH]; intros attempt w.
  - exists 0%nat. simpl. split; [reflexivity | lia].
  - apply attempts_step.
    + intros x w1 P _ _ _. exists 1%nat. split; [exact P | simpl; lia].
    + intros w1 P _ _ _ _. destruct (IH (attempt + 1) w1) as [n [En Hn]].
      exists (S n). rewrite En, P. split; [|lia].
      change (rq :: posted w) with ([rq] ++ posted w).
      rewrite app_assoc, <- repeat_cons. reflexivity.
Qed.

(** With the attempt number and the remaining range in step, the loop
    sleeps once between two POSTs and never after the last one. *)
Lemma attempts_slept retries delay rq fuel : forall attempt w,
  Z.of_nat fuel = retries + 1 - attempt ->
  exists n,
    posted (snd (attempts retries delay rq fuel attempt w))
    = repeat rq n ++ posted w /\
    slept (snd (attempts retries delay rq fuel attempt w))
    = repeat delay (n - 1) ++ slept w /\
    (Nat.min 1 fuel <= n)%nat.
Proof.
  induction fuel as [|fuel IH]; intros attempt w Hf.
  - exists 0%nat. simpl. repeat split; lia.
  - apply attempts_step.
    + intros x w1 P Sl _ _. exists 1%nat.
      repeat split; [exact P | exact Sl | simpl; lia].
    + intros w1 P Sl _ _ Hlt. apply Z.ltb_lt in Hlt.
      destruct (IH (attempt + 1) w1) as [n [En [Es Hn]]]; [lia|].
      assert (1 <= n)%nat by lia.
      exists (S n). rewrite En, Es, P, Sl. repeat split; [| |lia].
      * change (rq :: posted w) with ([rq] ++ posted w).
        rewrite app_assoc, <- repeat_cons. reflexivity.
      * replace (S n - 1)%nat with (S (n - 1)) by lia.
        change (delay :: slept w) with ([delay] ++ slept w).
        rewrite app_assoc, <- repeat_cons. reflexivity.
Qed.

(** The request client writes no file. *)
Lemma attempts_files retries delay rq fuel : forall attempt w,
  files (snd (attempts retries delay rq fuel attempt w)) = files w.
Proof.
  induction fuel as [|fuel IH]; intros attempt w; [reflexivity|].
  apply attempts_step.
  - intros x w1 _ _ _ F. exact F.
  - intros w1 _ _ _ F _. rewrite IH. exact F.
Qed.

(** ** The expected shape and the subscript chain *)

Lemma member_getitem k v x : member k v = Some x -> getitem v (Key k) = Ret x.
Proof.
  destruct v; simpl; try discriminate. intros ->. reflexivity.
Qed.

Lemma element_getitem v x : element 0 v = Some x -> getitem v (Idx 0) = Ret x.
Proof.
  destruct v as [| | | | |l|]; simpl; try discriminate.
  destruct l as [|y l]; simpl; [discriminate|].
  intros E. injection E as ->. unfold position.
  replace ((0 <=? 0) && (0 <? Z.of_nat (S (length l)))) with true
    by (symmetry; apply andb_true_iff; split; [reflexivity | apply Z.ltb_lt; lia]).
  reflexivity.
Qed.

(** A well-formed body: the chain returns the text, stripped. *)
Lemma extract_text_well_formed output t :
  text_field output = Some t -> extract_text output = Ret (strip t).
Proof.
  unfold text_field, nested_field, extract_text, and_then.
  destruct (member (lit "candidates") output) as [a|] eqn:Ea; [|discriminate].
  destruct (element 0 a) as [b|] eqn:Eb; [|discriminate].
  destruct (member (lit "content") b) as [c|] eqn:Ec; [|discriminate].
  destruct (member (lit "parts") c) as [d|] eqn:Ed; [|discriminate].
  destruct (element 0 d) as [e|] eqn:Ee; [|discriminate].
  destruct (member (lit "text") e) as [f|] eqn:Ef; [|discriminate].
  rewrite (member_getitem _ _ _ Ea). simpl.
  rewrite (element_getitem _ _ Eb). simpl.
  rewrite (member_getitem _ _ _ Ec). simpl.
  rewrite (member_getitem _ _ _ Ed). simpl.
  rewrite (element_getitem _ _ Ee). simpl.
  rewrite (member_getitem _ _ _ Ef). simpl.
  destruct f; try discriminate. intros E. injection E as ->. reflexivity.
Qed.

(** ** The request client *)

Lemma gemini_query_attempts self prompt retries delay w :
  gemini_query self prompt retries delay w
  = attempts retries delay
      {| url := api_url self; contents := build_contents self prompt;
         timeout := 30 |} (Z.to_nat retries) 1 w.
Proof. reflexivity. Qed.


(** C1 at a 400 whose text has a closing tag without an opening one.
    Line 55 prints the text of the response as console markup; rich
    refuses it with a [MarkupError], which the handler of line 60 does not
    catch: the call raises after its one POST instead of returning
    [None]. *)
Theorem client_error_with_closing_tag_raises :
  let w := Fixture.strict (fun _ => Fixture.http_text 400 (lit "[/x]")) in
  let m := lit "closing tag '[/x]' at position 32 doesn't match any open tag" in
  client_error {| status_code := 400; text := lit "[/x]"; json := NotJSON [] |}
  = true /\
  gemini_query Fixture.flash (lit "hi") default_retries default_delay w
  = (Raise (MarkupError m), snd (requests_post
                                   {| url := api_url Fixture.flash;
                                      contents := [lit "hi"]; timeout := 30 |} w)) /\
  fst (gemini_query Fixture.flash (lit "hi") default_retries default_delay w)
  <> Ret None.
Proof.
  split; [reflexivity|]. split; [reflexivity | discriminate].
Qed.

(** C3 at a 500 whose text has a closing tag without an opening one,
    followed by a well-formed 200.  The print of line 55 raises
    [MarkupError] at the first attempt: the second POST is never issued
    and the text of the 200 is not returned. *)
Theorem retry_after_500_with_closing_tag_raises :
  let w := Fixture.strict (Fixture.script
             [Fixture.http_text 500 (lit "down [/x]")]
             (Fixture.http 200 (Decoded (Fixture.ok_body (lit "pong"))))) in
  let m := lit "closing tag '[/x]' at position 37 doesn't match any open tag" in
  text_field (Fixture.ok_body (lit "pong")) = Some (lit "pong") /\
  fst (gemini_query Fixture.flash (lit "hi") default_retries default_delay w)
  = Raise (MarkupError m) /\
  posts_between w
    (snd (gemini_query Fixture.flash (lit "hi") default_retries default_delay w))
  = 1.
Proof.
  split; [reflexivity|]. split; reflexivity.
Qed.




(** C4 at a body whose ["candidates"] is [null]: the field is not there,
    the subscript [None[0]] is a [TypeError], which the inner handler
    does not name, and the call raises instead of returning the
    sentinel. *)
Theorem null_candidates_raises :
  let body := PDict [(lit "candidates", PNone)] in
  let w := Fixture.fresh (fun _ => Fixture.http 200 (Decoded body)) in
  nested_field body = None /\
  fst (gemini_query Fixture.flash (lit "hi") default_retries default_delay w)
  = Raise TypeError /\
  fst (gemini_query Fixture.flash (lit "hi") default_retries default_delay w)
  <> Ret (Some sentinel).
Proof.
  split; [reflexivity|]. split; [reflexivity | discriminate].
Qed.

(** Where the chain stops on a [KeyError] or an [IndexError], the inner
    handler applies and the call returns the sentinel. *)
Lemma handled_error_gives_sentinel self prompt retries delay w r output e :
  attempt_outcome w 0 = Responded r ->
  status_code r = 200 -> json r = Decoded output ->
  1 <= retries ->
  extract_text output = Raise e -> e = KeyError \/ e = IndexError ->
  fst (gemini_query self prompt retries delay w) = Ret (Some sentinel).
Proof.
  intros E C J Hr X He. unfold gemini_query.
  replace (Z.to_nat retries) with (S (Z.to_nat retries - 1)) by lia.
  rewrite (attempts_ok retries delay _ _ 1 w r output E C J), X.
  destruct He as [-> | ->]; reflexivity.
Qed.

(** So does a JSON object without ["candidates"], and one whose
    ["candidates"] is an empty array. *)
Lemma missing_candidates_gives_sentinel self prompt retries delay w r items :
  attempt_outcome w 0 = Responded r ->
  status_code r = 200 -> json r = Decoded (PDict items) ->
  1 <= retries ->
  lookup (lit "candidates") items = None
  \/ lookup (lit "candidates") items = Some (PList []) ->
  fst (gemini_query self prompt retries delay w) = Ret (Some sentinel).
Proof.
  intros E C J Hr [L | L].
  - apply (handled_error_gives_sentinel _ _ _ _ _ r (PDict items) KeyError);
      auto.
    unfold extract_text. simpl. rewrite L. reflexivity.
  - apply (handled_error_gives_sentinel _ _ _ _ _ r (PDict items) IndexError);
      auto.
    unfold extract_text. simpl. rewrite L. reflexivity.
Qed.

(** C7 at a body that is a JSON array: [output["candidates"]] is a
    [TypeError], no handler of [gemini_query] catches it, and it ends the
    command loop; the next line is never read.  A ["text"] that is a
    number ends it with an [AttributeError]. *)
Theorem array_body_ends_the_loop :
  let w := Fixture.fresh (fun _ => Fixture.http 200 (Decoded (PList []))) in
  let w' := Fixture.fresh
              (fun _ => Fixture.http 200 (Decoded
                 (PDict [(lit "candidates",
                    PList [PDict [(lit "content",
                      PDict [(lit "parts",
                        PList [PDict [(lit "text", PInt 7)]])])]])]))) in
  fst (gemini_query Fixture.flash (lit "hi") default_retries default_delay w)
  = Raise TypeError /\
  fst (fst (main_loop Fixture.ascii_only [lit "hi"; lit "/help"]
              (initial Fixture.flash) w))
  = [Crashed TypeError] /\
  fst (gemini_query Fixture.flash (lit "hi") default_retries default_delay w')
  = Raise AttributeError.
Proof.
  split; [reflexivity|]. split; reflexivity.
Qed.

(** C8. A name of the allow-list, which has two names, becomes the active
    model; any other name leaves the browser and every part of the world
    but the console unchanged, and the console gets the message that
    lists the allow-list. *)
Theorem set_model_allow_list self name w :
  length supported_models = 2%nat /\
  (In name supported_models ->
   model (fst (set_model self name w)) = name /\
   api_key (fst (set_model self name w)) = api_key self /\
   system_prompt (fst (set_model self name w)) = system_prompt self) /\
  (~ In name supported_models ->
   set_model self name w = (self, console_print (Markup unsupported_message) w) /\
   unsupported_message
   = lit "[red]Unsupported model.[/red] Available models: gemini-1.5-flash, gemini-1.5-pro").
Proof.
  split; [reflexivity|]. split.
  - intros H. apply mem_In in H. unfold set_model. rewrite H.
    repeat split.
  - intros H. unfold set_model.
    destruct (mem name supported_models) eqn:M.
    + apply mem_In in M. contradiction.
    + split; reflexivity.
Qed.

Lemma set_model_allow_list_witness :
  model (fst (set_model Fixture.flash (lit "gemini-1.5-pro")
                (Fixture.fresh (fun _ => Failed []))))
  = lit "gemini-1.5-pro" /\
  fst (set_model Fixture.flash (lit "gpt-4")
         (Fixture.fresh (fun _ => Failed [])))
  = Fixture.flash.
Proof.
  split.
  - apply (proj1 (proj2 (set_model_allow_list Fixture.flash (lit "gemini-1.5-pro")
                           (Fixture.fresh (fun _ => Failed []))))).
    right. left. reflexivity.
  - destruct (proj2 (proj2 (set_model_allow_list Fixture.flash (lit "gpt-4")
                               (Fixture.fresh (fun _ => Failed []))))) as [E _].
    + intros H. apply mem_In in H. discriminate H.
    + rewrite E. reflexivity.
Defined.

(** ** The command loop *)

(** The cases of one iteration. *)
Ltac split_iter :=
  repeat match goal with
         | |- context [match split1 ?x with _ => _ end] =>
             destruct (split1 x) as [|? [|? [|? ?]]] eqn:?
         | |- context [set_model ?b ?n ?w] => destruct (set_model b n w) eqn:?
         | |- context [write_file ?f ?c ?w] =>
             destruct (write_file f c w) as [[?|] ?] eqn:?
         | |- context [rich_print ?p ?w] =>
             destruct (rich_print p w) as [[?|] ?] eqn:?
         | |- context [history_panels ?i ?h ?w] =>
             destruct (history_panels i h w) as [[?|] ?] eqn:?
         | |- context [match last_reply ?s with _ => _ end] =>
             destruct (last_reply s) as [[|? ?]|] eqn:?
         | |- context [match history ?s with _ => _ end] =>
             destruct (history s) as [|[? ?] ?] eqn:?
         | |- context [gemini_query ?b ?p ?r ?d ?w] =>
             destruct (gemini_query b p r d w) as [[[[|? ?]|]|?] ?] eqn:?
         end.

(** The plain-prompt branch, as one equation. *)
Lemma main_iter_prompt tbl line s w :
  dispatch tbl (strip line) = BPrompt ->
  main_iter tbl line s w =
    match gemini_query (bot s) (strip line) default_retries default_delay
            (console_print thinking w) with
    | (Raise e, w1) => (Crashed e, s, w1)
    | (Ret (Some (c :: r)), w1) =>
        match rich_print (Panel (c :: r) (lit "Gemini Reply") (lit "green")) w1 with
        | (Some f, w2) => (Crashed (raise_of f), s, w2)
        | (None, w2) =>
            (Exchange (strip line) (Some (c :: r)),
             {| bot := bot s; last_reply := Some (c :: r);
                history := history s ++ [(strip line, c :: r)] |}, w2)
        end
    | (Ret reply, w1) => (Exchange (strip line) reply, s, w1)
    end.
Proof.
  intros D. unfold main_iter. rewrite D.
  destruct (gemini_query _ _ _ _ _) as [[[[|c r]|]|e] w1]; reflexivity.
Qed.

(** C2 at a 503 whose text has a closing tag without an opening one,
    sent for every attempt.  The print of line 55 raises [MarkupError] at
    the first attempt: the call ends with the exception after one POST
    instead of returning [None] after three, and the exception ends the
    command loop. *)
Theorem persistent_503_with_closing_tag_raises :
  let w := Fixture.strict (fun _ => Fixture.http_text 503 (lit "[/x]")) in
  let m := lit "closing tag '[/x]' at position 32 doesn't match any open tag" in
  (forall j, transient (attempt_outcome w j) = true) /\
  fst (gemini_query Fixture.flash (lit "hi") default_retries default_delay w)
  = Raise (MarkupError m) /\
  posts_between w
    (snd (gemini_query Fixture.flash (lit "hi") default_retries default_delay w))
  = 1 /\
  fst (fst (main_loop Fixture.ascii_only [lit "hi"; lit "/help"]
              (initial Fixture.flash) w))
  = [Crashed (MarkupError m)].
Proof.
  split; [intros j; reflexivity|]. split; [reflexivity|].
  split; reflexivity.
Qed.

(** C9, as the code has it.  In a plain-prompt iteration, a reply that is
    a non-empty string and that the console accepts is displayed in a
    panel, becomes [last_reply] and is appended with the prompt to
    [history]; [None] and the empty string leave the session unchanged and
    display nothing. *)
Theorem prompt_iteration_records_nonempty_reply tbl line s w reply w1 :
  dispatch tbl (strip line) = BPrompt ->
  gemini_query (bot s) (strip line) default_retries default_delay
    (console_print thinking w) = (Ret reply, w1) ->
  (forall c r, reply = Some (c :: r) -> printable w1 (c :: r) = true ->
     main_iter tbl line s w
     = (Exchange (strip line) reply,
        {| bot := bot s; last_reply := reply;
           history := history s ++ [(strip line, c :: r)] |},
        console_print (Panel (c :: r) (lit "Gemini Reply") (lit "green")) w1)) /\
  (reply = None \/ reply = Some [] ->
     main_iter tbl line s w = (Exchange (strip line) reply, s, w1)).
Proof.
  intros D E. rewrite (main_iter_prompt _ _ _ _ D), E. split.
  - intros c r -> Hp. unfold printable in Hp. unfold rich_print. cbn [markup_of].
    destruct (print_error w1 (c :: r)); [discriminate | reflexivity].
  - intros [-> | ->]; reflexivity.
Qed.

Lemma prompt_iteration_records_nonempty_reply_witness :
  history (snd (fst (main_iter Fixture.ascii_only (lit " hi ")
                       (initial Fixture.flash)
                       (Fixture.fresh (fun _ => Fixture.http 200
                          (Decoded (Fixture.ok_body (lit "pong"))))))))
  = [(lit "hi", lit "pong")].
Proof.
  destruct (prompt_iteration_records_nonempty_reply Fixture.ascii_only
              (lit " hi ") (initial Fixture.flash)
              (Fixture.fresh (fun _ => Fixture.http 200
                 (Decoded (Fixture.ok_body (lit "pong")))))
              (Some (lit "pong"))
              (snd (gemini_query Fixture.flash (lit "hi") 3 2
                      (console_print thinking
                         (Fixture.fresh (fun _ => Fixture.http 200
                            (Decoded (Fixture.ok_body (lit "pong"))))))))
              ltac:(reflexivity) ltac:(reflexivity)) as [H _].
  rewrite (H 112%N (lit "ong") ltac:(reflexivity) ltac:(reflexivity)).
  reflexivity.
Defined.

(** C9 as stated fails: the text of the response is blank, the call
    returns the empty string, which is not [None], and the loop neither
    displays nor records it. *)
Lemma empty_reply_is_not_recorded :
  let w := Fixture.fresh (fun _ => Fixture.http 200
                            (Decoded (Fixture.ok_body (lit "  ")))) in
  fst (gemini_query Fixture.flash (lit "hi") default_retries default_delay
         (console_print thinking w)) = Ret (Some []) /\
  Some ([] : str) <> None /\
  fst (main_iter Fixture.ascii_only (lit "hi") (initial Fixture.flash) w)
  = (Exchange (lit "hi") (Some []), initial Fixture.flash) /\
  console (snd (main_iter Fixture.ascii_only (lit "hi") (initial Fixture.flash) w))
  = [thinking].
Proof.
  split; [reflexivity|]. split; [discriminate|]. split; reflexivity.
Qed.

(** C10, as the code has it.  The loop has no test for an empty input:
    every line that, once stripped, is neither [exit]/[quit] nor starts
    with a command prefix reaches the request client, the empty line
    included, and a POST carrying the stripped line is issued. *)
Theorem every_other_line_is_queried tbl :
  dispatch tbl (strip []) = BPrompt /\
  forall line s w,
    dispatch tbl (strip line) = BPrompt ->
    exists n,
      (1 <= n <= 3)%nat /\
      posted (snd (main_iter tbl line s w))
      = repeat {| url := api_url (bot s);
                  contents := build_contents (bot s) (strip line);
                  timeout := 30 |} n ++ posted w.
Proof.
  split; [reflexivity|].
  intros line s w D.
  destruct (attempts_posted default_retries default_delay
              {| url := api_url (bot s);
                 contents := build_contents (bot s) (strip line);
                 timeout := 30 |} 3 1 (console_print thinking w))
    as [n [P Hn]].
  exists n. split; [simpl in Hn; lia|].
  rewrite (main_iter_prompt _ _ _ _ D).
  unfold gemini_query.
  change (Z.to_nat default_retries) with 3%nat.
  destruct (attempts _ _ _ _ _ _) as [[[[|c r]|]|e] w1]; try exact P.
  unfold rich_print. destruct (print_error w1 _); exact P.
Qed.

Lemma every_other_line_is_queried_witness :
  exists n,
    (1 <= n <= 3)%nat /\
    posted (snd (main_iter Fixture.ascii_only (lit "  ") (initial Fixture.flash)
                   (Fixture.fresh (fun _ => Failed []))))
    = repeat {| url := api_url Fixture.flash;
                contents := build_contents Fixture.flash (strip (lit "  "));
                timeout := 30 |} n ++ [].
Proof.
  apply (proj2 (every_other_line_is_queried Fixture.ascii_only) (lit "  ")
           (initial Fixture.flash) (Fixture.fresh (fun _ => Failed []))).
  reflexivity.
Defined.

(** C10 as stated fails: the user enters an empty line, and the request
    client is invoked, three POSTs whose prompt is empty. *)
Lemma empty_line_is_queried :
  let w := Fixture.fresh (fun _ => Failed []) in
  strip [] = [] /\
  fst (fst (main_iter Fixture.ascii_only [] (initial Fixture.flash) w))
  = Exchange [] None /\
  map contents
    (posted (snd (main_iter Fixture.ascii_only [] (initial Fixture.flash) w)))
  = [[[]]; [[]]; [[]]] /\
  posts_between w
    (snd (main_iter Fixture.ascii_only [] (initial Fixture.flash) w))
  <> 0.
Proof.
  split; [reflexivity|]. split; [reflexivity|]. split; [reflexivity|].
  vm_compute. discriminate.
Qed.

(** What an iteration does to the session: it appends one exchange and
    sets [last_reply] when the event is a recorded exchange, and keeps
    both otherwise. *)
Lemma main_iter_session tbl line s w :
  let '(ev, s', _) := main_iter tbl line s w in
  if recorded ev
  then exists q reply, history s' = history s ++ [(q, reply)]
                       /\ last_reply s' = Some reply
  else history s' = history s /\ last_reply s' = last_reply s.
Proof.
  unfold main_iter, write_or_report, write_and_confirm, print_or_crash.
  destruct (dispatch tbl (strip line)); split_iter;
    simpl; try (split; congruence); eauto.
Qed.

Lemma count_snoc p evs ev :
  count p (evs ++ [ev]) = (count p evs + (if p ev then 1 else 0))%nat.
Proof.
  unfold count. rewrite filter_app, length_app. simpl.
  destruct (p ev); reflexivity.
Qed.

Lemma invariant_step tbl evs line s w :
  invariant evs s ->
  invariant (evs ++ [fst (fst (main_iter tbl line s w))])
            (snd (fst (main_iter tbl line s w))).
Proof.
  intros [Hh Hl]. pose proof (main_iter_session tbl line s w) as S.
  destruct (main_iter tbl line s w) as [[ev s'] w']. simpl.
  unfold invariant. rewrite count_snoc.
  destruct (recorded ev).
  - destruct S as [q [reply [Eh El]]]. rewrite Eh, length_app. simpl.
    split; lia.
  - destruct S as [Eh El]. rewrite Eh, El. split; [lia|].
    intros H. specialize (Hl H). lia.
Qed.

Lemma invariant_loop tbl lines : forall evs0 s w,
  invariant evs0 s ->
  invariant (evs0 ++ fst (fst (main_loop tbl lines s w)))
            (snd (fst (main_loop tbl lines s w))).
Proof.
  induction lines as [|line rest IH]; intros evs0 s w I.
  - simpl. rewrite app_nil_r. exact I.
  - pose proof (invariant_step tbl evs0 line s w I) as I1.
    simpl. destruct (main_iter tbl line s w) as [[ev s1] w1]. simpl in I1.
    specialize (IH (evs0 ++ [ev]) s1 w1 I1).
    destruct (main_loop tbl rest s1 w1) as [[evs s2] w2]. simpl in IH.
    rewrite <- app_assoc in IH. simpl in IH.
    destruct ev; simpl; assumption.
Qed.

(** C5, as the code has it.  With the recorded exchanges being those whose
    reply is a non-empty string: at the start, after every iteration and
    so after any number of lines, the length of [history] is the number of
    recorded exchanges since the start, and [last_reply] is not [None]
    only if there was at least one. *)
Theorem loop_invariant tbl :
  (forall b, invariant [] (initial b)) /\
  (forall evs line s w,
     invariant evs s ->
     invariant (evs ++ [fst (fst (main_iter tbl line s w))])
               (snd (fst (main_iter tbl line s w)))) /\
  (forall lines b w,
     invariant (fst (fst (main_loop tbl lines (initial b) w)))
               (snd (fst (main_loop tbl lines (initial b) w)))).
Proof.
  assert (I0 : forall b, invariant [] (initial b)).
  { intros b. split; [reflexivity|]. simpl. intros H. contradiction. }
  split; [exact I0|]. split.
  - intros evs line s w. apply invariant_step.
  - intros lines b w. apply (invariant_loop tbl lines [] (initial b) w), I0.
Qed.

Lemma loop_invariant_witness :
  invariant
    ([] ++ [fst (fst (main_iter Fixture.ascii_only (lit "hi")
                        (initial Fixture.flash)
                        (Fixture.fresh (fun _ => Fixture.http 200
                           (Decoded (Fixture.ok_body (lit "pong")))))))])
    (snd (fst (main_iter Fixture.ascii_only (lit "hi")
                 (initial Fixture.flash)
                 (Fixture.fresh (fun _ => Fixture.http 200
                    (Decoded (Fixture.ok_body (lit "pong")))))))).
Proof.
  apply (proj1 (proj2 (loop_invariant Fixture.ascii_only))).
  apply (proj1 (loop_invariant Fixture.ascii_only)).
Defined.

(** C5 as stated fails: an exchange succeeds with a blank text, the
    request client returns the empty string, and [history] stays empty
    although one exchange got a reply. *)
Lemma blank_reply_is_not_counted :
  let w := Fixture.fresh (fun _ => Fixture.http 200
                            (Decoded (Fixture.ok_body (lit " ")))) in
  let run := main_loop Fixture.ascii_only [lit "hi"] (initial Fixture.flash) w in
  fst (fst run) = [Exchange (lit "hi") (Some [])] /\
  count replied (fst (fst run)) = 1%nat /\
  length (history (snd (fst run))) = 0%nat /\
  length (history (snd (fst run))) <> count replied (fst (fst run)).
Proof.
  split; [reflexivity|]. split; [reflexivity|]. split; [reflexivity|].
  vm_compute. discriminate.
Qed.

(** ** More on the request client *)

(** X1. Whatever the network answers, a call issues at most [retries]
    POSTs and at least one when [retries] is positive, and all of them
    carry the same request: the URL of the active model with the key,
    the system block (if set) and the prompt, a timeout of 30. *)
Theorem gemini_query_posts_bounded self prompt retries delay w :
  exists n,
    posted (snd (gemini_query self prompt retries delay w))
    = repeat {| url := api_url self; contents := build_contents self prompt;
                timeout := 30 |} n ++ posted w /\
    Z.min 1 (Z.max 0 retries) <= Z.of_nat n <= Z.max 0 retries.
Proof.
  destruct (attempts_posted retries delay
              {| url := api_url self; contents := build_contents self prompt;
                 timeout := 30 |} (Z.to_nat retries) 1 w) as [n [P Hn]].
  exists n. rewrite gemini_query_attempts. split; [exact P | lia].
Qed.

(** X2. With a delay that [time.sleep] accepts, a call sleeps [delay]
    exactly once between two consecutive POSTs and never after its last
    POST: [n] POSTs come with [n - 1] sleeps. *)
Theorem gemini_query_sleeps_between_attempts self prompt retries delay w :
  0 <= delay ->
  exists n,
    posts_between w (snd (gemini_query self prompt retries delay w))
    = Z.of_nat n /\
    slept (snd (gemini_query self prompt retries delay w))
    = repeat delay (n - 1) ++ slept w.
Proof.
  intros Hd. rewrite gemini_query_attempts.
  destruct (Z.lt_ge_cases retries 0) as [Hneg | Hpos].
  - exists 0%nat. replace (Z.to_nat retries) with 0%nat by lia.
    simpl. unfold posts_between. split; [lia | reflexivity].
  - destruct (attempts_slept retries delay
                {| url := api_url self; contents := build_contents self prompt;
                   timeout := 30 |} (Z.to_nat retries) 1 w)
      as [n [P [Sl _]]]; [lia|].
    exists n. split; [|exact Sl].
    unfold posts_between. rewrite P, length_app, repeat_length. lia.
Qed.

Lemma gemini_query_sleeps_between_attempts_witness :
  exists n,
    posts_between
      (Fixture.fresh (Fixture.script [Failed []; Fixture.http 502 (NotJSON [])]
                        (Fixture.http 404 (NotJSON []))))
      (snd (gemini_query Fixture.flash (lit "hi") 3 2
              (Fixture.fresh (Fixture.script
                 [Failed []; Fixture.http 502 (NotJSON [])]
                 (Fixture.http 404 (NotJSON []))))))
    = Z.of_nat n /\
    slept (snd (gemini_query Fixture.flash (lit "hi") 3 2
                  (Fixture.fresh (Fixture.script
                     [Failed []; Fixture.http 502 (NotJSON [])]
                     (Fixture.http 404 (NotJSON []))))))
    = repeat 2 (n - 1) ++ [].
Proof.
  apply (gemini_query_sleeps_between_attempts Fixture.flash (lit "hi") 3 2
           (Fixture.fresh (Fixture.script
              [Failed []; Fixture.http 502 (NotJSON [])]
              (Fixture.http 404 (NotJSON []))))).
  lia.
Defined.

(** X3. With [retries] zero or negative the range of the loop is empty:
    the call returns [None] without a POST, a sleep or a message. *)
Theorem gemini_query_without_attempts self prompt retries delay w :
  retries <= 0 ->
  gemini_query self prompt retries delay w = (Ret None, w).
Proof.
  intros H. rewrite gemini_query_attempts.
  replace (Z.to_nat retries) with 0%nat by lia. reflexivity.
Qed.

Lemma gemini_query_without_attempts_witness :
  gemini_query Fixture.flash (lit "hi") 0 2 (Fixture.fresh (fun _ => Failed []))
  = (Ret None, Fixture.fresh (fun _ => Failed [])).
Proof.
  apply (gemini_query_without_attempts Fixture.flash (lit "hi") 0 2
           (Fixture.fresh (fun _ => Failed []))).
  lia.
Defined.



(** X5. A delay that [time.sleep] refuses shows at the first retry: when
    the first attempt fails in a way that is retried, its line is printed
    and an attempt is left, the call ends after its one POST with the
    exception of [time.sleep], [OverflowError] outside the range of the C
    clock and [ValueError] for the other negative delays. *)
Theorem refused_delay_raises self prompt retries delay w :
  ~ sleepable delay ->
  2 <= retries ->
  passed w (attempt_outcome w 0) = true ->
  fst (gemini_query self prompt retries delay w)
  = Raise (if (delay <? - sleep_max) || (sleep_max <? delay)
           then OverflowError else ValueError) /\
  posts_between w (snd (gemini_query self prompt retries delay w)) = 1.
Proof.
  intros Hd Hr Hp. rewrite gemini_query_attempts.
  replace (Z.to_nat retries) with (S (Z.to_nat retries - 1)) by lia.
  unfold attempt_outcome in Hp. rewrite Nat.add_0_r in Hp.
  apply andb_true_iff in Hp. destruct Hp as [Ho Ha].
  assert (Hlt : (1 <? retries) = true) by (apply Z.ltb_lt; lia).
  assert (Hs : forall w0, time_sleep delay w0
                 = (Raise (if (delay <? - sleep_max) || (sleep_max <? delay)
                           then OverflowError else ValueError), w0)).
  { intros w0. unfold time_sleep.
    destruct ((delay <? - sleep_max) || (sleep_max <? delay)) eqn:B;
      [reflexivity|].
    apply orb_false_iff in B. destruct B as [B1 B2].
    apply Z.ltb_ge in B1, B2.
    replace (delay <? 0) with true; [reflexivity|].
    symmetry. apply Z.ltb_lt. unfold sleepable in Hd. lia. }
  match goal with
  | |- fst ?x = Raise ?e /\ _ =>
      assert (Q : exists w', x = (Raise e, w')
                             /\ length (posted w') = S (length (posted w)))
  end.
  { cbn [attempts requests_post].
    destruct (net w (length (posted w))) as [r|msg].
    - destruct r as [c t j].
      unfold retried, transient, unparseable, server_error in Ho.
      unfold accepted, printed_line in Ha. cbn [status_code json] in *.
      destruct (c =? 200) eqn:Ec.
      + apply Z.eqb_eq in Ec. subst c. simpl in Ho.
        destruct j as [output|m|]; try discriminate.
        unfold response_json. cbn [json JSONDecodeError except_RequestException].
        rewrite (accepted_print _ _ _ Ha) by reflexivity.
        rewrite Hlt, Hs. eexists. split; reflexivity.
      + assert (Hr' : (500 <=? c) && (c <? 600) = true).
        { destruct j; rewrite ?orb_false_r in Ho; exact Ho. }
        rewrite (accepted_print _ _ _ Ha) by reflexivity.
        rewrite Hr', Hlt. cbn [andb]. rewrite Hs.
        destruct ((delay <? - sleep_max) || (sleep_max <? delay));
          eexists; split; reflexivity.
    - unfold accepted, printed_line in Ha. cbn [except_RequestException].
      rewrite (accepted_print _ _ _ Ha) by reflexivity.
      rewrite Hlt, Hs. eexists. split; reflexivity. }
  destruct Q as [w' [E P]]. rewrite E. split; [reflexivity|].
  unfold posts_between. cbn [snd]. rewrite P. lia.
Qed.

Lemma refused_delay_raises_witness :
  fst (gemini_query Fixture.flash (lit "hi") 3 (-1)
         (Fixture.fresh (fun _ => Failed []))) = Raise ValueError /\
  fst (gemini_query Fixture.flash (lit "hi") 3 (10 ^ 20)
         (Fixture.fresh (fun _ => Failed []))) = Raise OverflowError.
Proof.
  split.
  - apply (refused_delay_raises Fixture.flash (lit "hi") 3 (-1)
             (Fixture.fresh (fun _ => Failed []))).
    + unfold sleepable. lia.
    + lia.
    + reflexivity.
  - apply (refused_delay_raises Fixture.flash (lit "hi") 3 (10 ^ 20)
             (Fixture.fresh (fun _ => Failed []))).
    + unfold sleepable, sleep_max. lia.
    + lia.
    + reflexivity.
Defined.

Lemma bind_returns {A B} (r : res A) (k : A -> res B) b :
  bind r k = Ret b -> exists a, r = Ret a /\ k a = Ret b.
Proof. destruct r; simpl; intros E; [eauto | discriminate]. Qed.

Lemma getitem_key_returns v k x :
  getitem v (Key k) = Ret x -> member k v = Some x.
Proof.
  destruct v; simpl; try discriminate.
  destruct (lookup k items); intros E; [congruence | discriminate].
Qed.

(** [v[0]] returns for a non-empty list, and for a non-empty string,
    whose first character it gives. *)
Lemma getitem_zero_returns v x :
  getitem v (Idx 0) = Ret x ->
  element 0 v = Some x \/ exists c, x = PStr [c].
Proof.
  destruct v as [| | | |s|l|]; simpl; try discriminate.
  - destruct (position _ _); [destruct (nth_error s _)|]; try discriminate.
    intros E. injection E as <-. right. eauto.
  - destruct l as [|y l]; [discriminate|].
    unfold position.
    replace ((0 <=? 0) && (0 <? Z.of_nat (length (y :: l)))) with true
      by (symmetry; apply andb_true_iff; split;
          [reflexivity | apply Z.ltb_lt; simpl length; lia]).
    simpl. intros E. left. congruence.
Qed.

(** The chain returns only on the expected shape. *)
Lemma extract_text_returns output s :
  extract_text output = Ret s ->
  exists t, text_field output = Some t /\ s = strip t.
Proof.
  unfold extract_text. intros E.
  apply bind_returns in E. destruct E as [a [Ea E]].
  apply bind_returns in E. destruct E as [b [Eb E]].
  apply bind_returns in E. destruct E as [c [Ec E]].
  apply bind_returns in E. destruct E as [d [Ed E]].
  apply bind_returns in E. destruct E as [e [Ee E]].
  apply bind_returns in E. destruct E as [f [Ef E]].
  apply getitem_key_returns in Ea, Ec, Ed, Ef.
  apply getitem_zero_returns in Eb, Ee.
  destruct Eb as [Eb | [x ->]]; [|discriminate Ec].
  destruct Ee as [Ee | [x ->]]; [|discriminate Ef].
  destruct f; simpl in E; try discriminate. injection E as <-.
  exists s0. unfold text_field, nested_field, and_then.
  rewrite Ea, Eb, Ec, Ed, Ee, Ef. split; reflexivity.
Qed.

(** X6. The subscript chain returns a text exactly for the response shape
    of the wire protocol: the body is an object whose ["candidates"] is an
    array, whose first element is an object with ["content"], an object
    with ["parts"], an array whose first element is an object whose
    ["text"] is a string; the text is returned stripped. *)
Theorem extract_text_iff_text_field output s :
  extract_text output = Ret s <->
  exists t, text_field output = Some t /\ s = strip t.
Proof.
  split.
  - apply extract_text_returns.
  - intros [t [T ->]]. apply extract_text_well_formed. exact T.
Qed.

Lemma extract_text_iff_text_field_witness :
  exists t, text_field (Fixture.ok_body (lit " pong ")) = Some t
            /\ lit "pong" = strip t.
Proof.
  apply (proj1 (extract_text_iff_text_field (Fixture.ok_body (lit " pong "))
                  (lit "pong"))).
  reflexivity.
Defined.

Lemma missing_candidates_gives_sentinel_witness :
  fst (gemini_query Fixture.flash (lit "hi") 3 2
         (Fixture.fresh (fun _ => Fixture.http 200
            (Decoded (PDict [(lit "promptFeedback", PDict [])])))))
  = Ret (Some sentinel).
Proof.
  apply (missing_candidates_gives_sentinel Fixture.flash (lit "hi") 3 2
           (Fixture.fresh (fun _ => Fixture.http 200
              (Decoded (PDict [(lit "promptFeedback", PDict [])]))))
           {| status_code := 200; text := lit "body";
              json := Decoded (PDict [(lit "promptFeedback", PDict [])]) |}
           [(lit "promptFeedback", PDict [])]).
  - reflexivity.
  - reflexivity.
  - reflexivity.
  - lia.
  - left. reflexivity.
Defined.

Lemma attempt_outcome_shift rq w w1 k :
  net w1 = net w -> posted w1 = rq :: posted w ->
  attempt_outcome w1 k = attempt_outcome w (S k).
Proof.
  intros N P. unfold attempt_outcome. rewrite N, P. simpl length.
  f_equal. lia.
Qed.

(** A reply of the loop is that of its last POST, answered by a 200 with
    a JSON body. *)
Lemma attempts_reply retries delay rq fuel : forall attempt w s,
  fst (attempts retries delay rq fuel attempt w) = Ret (Some s) ->
  exists k r output,
    attempt_outcome w k = Responded r /\
    status_code r = 200 /\ json r = Decoded output /\
    length (posted (snd (attempts retries delay rq fuel attempt w)))
    = (length (posted w) + k + 1)%nat /\
    (extract_text output = Ret s \/
     s = sentinel /\ (extract_text output = Raise KeyError
                      \/ extract_text output = Raise IndexError)).
Proof.
  induction fuel as [|fuel IH]; intros attempt w s; [discriminate|].
  assert (Go : forall w1,
             net w1 = net w -> posted w1 = rq :: posted w ->
             fst (attempts retries delay rq fuel (attempt + 1) w1)
             = Ret (Some s) ->
             exists k r output,
               attempt_outcome w k = Responded r /\
               status_code r = 200 /\ json r = Decoded output /\
               length (posted (snd (attempts retries delay rq fuel
                                      (attempt + 1) w1)))
               = (length (posted w) + k + 1)%nat /\
               (extract_text output = Ret s \/
                s = sentinel /\ (extract_text output = Raise KeyError
                                 \/ extract_text output = Raise IndexError))).
  { intros w1 N P E.
    destruct (IH (attempt + 1) w1 s E) as [k [r [output [O [C [J [L X]]]]]]].
    exists (S k), r, output.
    rewrite <- (attempt_outcome_shift rq w w1 k N P).
    repeat split; try assumption.
    rewrite L, P. simpl length. lia. }
  cbn [attempts requests_post].
  unfold except_RequestException, rich_print, time_sleep, response_json,
    JSONDecodeError, console_print.
  cbn [markup_of print_error].
  destruct (net w (length (posted w))) as [r|msg] eqn:O.
  - destruct (status_code r =? 200) eqn:C.
    + apply Z.eqb_eq in C.
      destruct (json r) as [output|m|] eqn:J.
      * assert (Here : attempt_outcome w 0 = Responded r)
          by (unfold attempt_outcome; rewrite Nat.add_0_r; exact O).
        destruct (extract_text output) as [t|x] eqn:X.
        -- simpl. intros E. injection E as <-.
           exists 0%nat, r, output. repeat split; auto. simpl. lia.
        -- pose proof (extract_text_raises _ _ X) as Hx.
           destruct x; simpl in Hx; try discriminate Hx; simpl;
             try discriminate; intros E; injection E as <-;
             exists 0%nat, r, output; repeat split; auto; simpl; lia.
      * destruct (print_error w _); [discriminate|].
        destruct (attempt <? retries); [|discriminate].
        destruct (_ || _); [discriminate|].
        destruct (delay <? 0); [discriminate|]. apply Go; reflexivity.
      * discriminate.
    + destruct (print_error w _); [discriminate|].
      destruct ((500 <=? status_code r) && (status_code r <? 600)
                && (attempt <? retries)); [|discriminate].
      destruct (_ || _); [discriminate|].
      destruct (delay <? 0); [discriminate|]. apply Go; reflexivity.
  - destruct (print_error w _); [discriminate|].
    destruct (attempt <? retries); [|discriminate].
    destruct (_ || _); [discriminate|].
    destruct (delay <? 0); [discriminate|]. apply Go; reflexivity.
Qed.

(** X7. A reply is only ever taken from an HTTP 200 with a JSON body, and
    that response answered the last POST of the call: the reply is the
    stripped text of its expected field, or the sentinel. *)
Theorem reply_comes_from_a_200 self prompt retries delay w s :
  fst (gemini_query self prompt retries delay w) = Ret (Some s) ->
  exists k r output,
    attempt_outcome w k = Responded r /\
    status_code r = 200 /\ json r = Decoded output /\
    posts_between w (snd (gemini_query self prompt retries delay w))
    = Z.of_nat k + 1 /\
    (s = sentinel \/ exists t, text_field output = Some t /\ s = strip t).
Proof.
  rewrite gemini_query_attempts. intros E.
  destruct (attempts_reply _ _ _ _ _ _ _ E) as [k [r [output [O [C [J [L X]]]]]]].
  exists k, r, output. repeat split; try assumption.
  - unfold posts_between. rewrite L. lia.
  - destruct X as [X | [-> _]]; [right | left; reflexivity].
    apply extract_text_returns. exact X.
Qed.

Lemma reply_comes_from_a_200_witness :
  exists k r output,
    attempt_outcome
      (Fixture.fresh (Fixture.script [Failed []]
         (Fixture.http 200 (Decoded (Fixture.ok_body (lit "pong")))))) k
    = Responded r /\
    status_code r = 200 /\ json r = Decoded output.
Proof.
  destruct (reply_comes_from_a_200 Fixture.flash (lit "hi") 3 2
              (Fixture.fresh (Fixture.script [Failed []]
                 (Fixture.http 200 (Decoded (Fixture.ok_body (lit "pong"))))))
              (lit "pong") ltac:(reflexivity))
    as [k [r [output [O [C [J _]]]]]].
  exists k, r, output. repeat split; assumption.
Defined.






(** ** Stripping and splitting *)

Lemma lstrip_head s c t : lstrip s = c :: t -> isspace c = false.
Proof.
  induction s as [|a s IH]; simpl; [discriminate|].
  destruct (isspace a) eqn:E; [exact IH|].
  intros H. injection H as -> _. exact E.
Qed.

Lemma lstrip_keeps c t : isspace c = false -> lstrip (c :: t) = c :: t.
Proof. intros E. simpl. rewrite E. reflexivity. Qed.

Lemma lstrip_snoc l c :
  isspace c = false -> exists u, lstrip (l ++ [c]) = u ++ [c].
Proof.
  intros E. induction l as [|a l IH]; simpl.
  - rewrite E. exists []. reflexivity.
  - destruct (isspace a); [exact IH|]. exists (a :: l). reflexivity.
Qed.

Lemma rstrip_keeps_head c t :
  isspace c = false -> exists u, rstrip (c :: t) = c :: u.
Proof.
  intros E. unfold rstrip. simpl rev.
  destruct (lstrip_snoc (rev t) c E) as [u ->].
  exists (rev u). rewrite rev_app_distr. reflexivity.
Qed.

(** A string that starts with a visible character is not emptied by
    [strip()]. *)
Lemma strip_keeps_head c t :
  isspace c = false -> exists u, strip (c :: t) = c :: u.
Proof.
  intros E. unfold strip. rewrite (lstrip_keeps c t E).
  apply rstrip_keeps_head. exact E.
Qed.

(** The second part of a split starts with a visible character. *)
Lemma split1_second s w r :
  split1 s = [w; r] -> exists c t, r = c :: t /\ isspace c = false.
Proof.
  unfold split1. destruct (lstrip s) as [|a s1]; [discriminate|].
  destruct (word (a :: s1)) as [w0 r0].
  destruct (lstrip r0) as [|c t] eqn:L; [discriminate|].
  intros H. injection H as _ <-. exists c, t. split; [reflexivity|].
  exact (lstrip_head _ _ _ L).
Qed.

Lemma split1_argument s w r :
  split1 s = [w; r] -> exists c u, strip r = c :: u.
Proof.
  intros H. destruct (split1_second _ _ _ H) as [c [t [-> E]]].
  destruct (strip_keeps_head c t E) as [u ->]. eauto.
Qed.

Lemma word_no_space s : no_space s = true -> word s = (s, []).
Proof.
  induction s as [|a s IH]; simpl; [reflexivity|].
  intros H. apply andb_true_iff in H. destruct H as [Ha Hs].
  apply negb_true_iff in Ha. rewrite Ha, (IH Hs). reflexivity.
Qed.

(** An input without whitespace is a single part. *)
Lemma split1_single s :
  s <> [] -> no_space s = true -> split1 s = [s].
Proof.
  intros Hne Hs. destruct s as [|a s]; [contradiction|].
  unfold split1. pose proof Hs as Hs'. simpl in Hs'.
  apply andb_true_iff in Hs'. destruct Hs' as [Ha _].
  apply negb_true_iff in Ha. rewrite (lstrip_keeps a s Ha).
  rewrite (word_no_space _ Hs). reflexivity.
Qed.

(** ** More on the command loop *)

Lemma same_network_refl w : same_network w w.
Proof. repeat split. Qed.

Lemma same_network_print p w : same_network w (console_print p w).
Proof. repeat split. Qed.

Lemma same_network_trans w1 w2 w3 :
  same_network w1 w2 -> same_network w2 w3 -> same_network w1 w3.
Proof. intros [a [b c]] [d [e f]]. repeat split; congruence. Qed.

Lemma same_network_rich_print p w : same_network w (snd (rich_print p w)).
Proof.
  unfold rich_print. destruct (print_error w (markup_of p)); repeat split.
Qed.

Lemma same_network_set_model b n w :
  same_network w (snd (set_model b n w)).
Proof. unfold set_model. destruct (mem n supported_models); repeat split. Qed.

Lemma same_network_write_file f c w :
  same_network w (snd (write_file f c w)).
Proof.
  unfold write_file. destruct (open_error w f); [repeat split|].
  destruct (write_error w f c) as [[kept err]|]; repeat split.
Qed.

Lemma same_network_history_panels h : forall i w,
  same_network w (snd (history_panels i h w)).
Proof.
  induction h as [|[q r] h IH]; intros i w; cbn [history_panels];
    [apply same_network_refl|].
  pose proof (same_network_rich_print (exchange_panel i q r) w) as N.
  destruct (rich_print (exchange_panel i q r) w) as [[m|] w1]; cbn [snd] in *;
    [exact N|].
  eapply same_network_trans; [exact N | apply IH].
Qed.

Lemma set_model_files b n w : files (snd (set_model b n w)) = files w.
Proof. unfold set_model. destruct (mem n supported_models); reflexivity. Qed.

Lemma rich_print_files p w : files (snd (rich_print p w)) = files w.
Proof.
  unfold rich_print. destruct (print_error w (markup_of p)); reflexivity.
Qed.

Lemma history_panels_files h : forall i w,
  files (snd (history_panels i h w)) = files w.
Proof.
  induction h as [|[q r] h IH]; intros i w; cbn [history_panels];
    [reflexivity|].
  pose proof (rich_print_files (exchange_panel i q r) w) as F.
  destruct (rich_print (exchange_panel i q r) w) as [[m|] w1]; cbn [snd] in *;
    [exact F|].
  rewrite IH. exact F.
Qed.

(** The frame of any operation of [w] that ends in [w1], from the
    equation that introduced [w1]. *)
Ltac frame_of H :=
  match type of H with
  | rich_print ?p ?w = (_, ?w1) =>
      let N := fresh "N" in let F := fresh "F" in
      pose proof (same_network_rich_print p w) as N;
      pose proof (rich_print_files p w) as F;
      rewrite H in N, F; cbn [snd] in N, F
  | write_file ?f ?c ?w = (_, ?w1) =>
      let N := fresh "N" in
      pose proof (same_network_write_file f c w) as N;
      rewrite H in N; cbn [snd] in N
  | set_model ?b ?n ?w = (_, ?w1) =>
      let N := fresh "N" in let F := fresh "F" in
      pose proof (same_network_set_model b n w) as N;
      pose proof (set_model_files b n w) as F;
      rewrite H in N, F; cbn [snd] in N, F
  | history_panels ?i ?h ?w = (_, ?w1) =>
      let N := fresh "N" in let F := fresh "F" in
      pose proof (same_network_history_panels h i w) as N;
      pose proof (history_panels_files h i w) as F;
      rewrite H in N, F; cbn [snd] in N, F
  end.

Ltac frames :=
  repeat match goal with
         | H : rich_print _ _ = _ |- _ => frame_of H; clear H
         | H : write_file _ _ _ = _ |- _ => frame_of H; clear H
         | H : set_model _ _ _ = _ |- _ => frame_of H; clear H
         | H : history_panels _ _ _ = _ |- _ => frame_of H; clear H
         end.

(** An iteration that is not a plain prompt. *)
Lemma main_iter_offline tbl line s w :
  dispatch tbl (strip line) <> BPrompt ->
  same_network w (snd (main_iter tbl line s w)) /\
  (fst (fst (main_iter tbl line s w)) = Command
   \/ fst (fst (main_iter tbl line s w)) = Quit
   \/ exists f, fst (fst (main_iter tbl line s w)) = Crashed (raise_of f)).
Proof.
  intros D. unfold main_iter, write_or_report, write_and_confirm, print_or_crash.
  destruct (dispatch tbl (strip line)); try contradiction;
    split_iter; frames; cbn [fst snd];
    (split; [|eauto]);
    eauto using same_network_print, same_network_trans, same_network_refl.
Qed.

(** X8. A command never touches the network: an iteration that is not a
    plain prompt issues no POST and does not sleep; it is a [Command] or
    [Quit], or ends with the exception of one of its prints. *)
Theorem commands_stay_offline tbl line s w :
  dispatch tbl (strip line) <> BPrompt ->
  same_network w (snd (main_iter tbl line s w)) /\
  (fst (fst (main_iter tbl line s w)) = Command
   \/ fst (fst (main_iter tbl line s w)) = Quit
   \/ exists f, fst (fst (main_iter tbl line s w)) = Crashed (raise_of f)).
Proof. apply main_iter_offline. Qed.

Lemma commands_stay_offline_witness :
  same_network
    (Fixture.fresh (fun _ => Failed []))
    (snd (main_iter Fixture.ascii_only (lit "/export out.txt")
            (initial Fixture.flash) (Fixture.fresh (fun _ => Failed [])))).
Proof.
  apply (commands_stay_offline Fixture.ascii_only (lit "/export out.txt")
           (initial Fixture.flash) (Fixture.fresh (fun _ => Failed []))).
  discriminate.
Defined.

(** What an iteration does to the session, event by event. *)
Lemma main_iter_cases tbl line s w :
  match main_iter tbl line s w with
  | (Exchange q (Some (c :: r)), s', _) =>
      q = strip line /\ dispatch tbl q = BPrompt /\
      s' = {| bot := bot s; last_reply := Some (c :: r);
              history := history s ++ [(q, c :: r)] |}
  | (Exchange _ _, s', _) | (Quit, s', _) => s' = s
  | (_, s', _) =>
      last_reply s' = last_reply s /\ history s' = history s
  end.
Proof.
  unfold main_iter, write_or_report, write_and_confirm, print_or_crash.
  destruct (dispatch tbl (strip line)) eqn:D; split_iter; simpl; auto.
Qed.

Lemma exchanges_of_app a b :
  exchanges_of (a ++ b) = exchanges_of a ++ exchanges_of b.
Proof.
  induction a as [|ev a IH]; simpl; [reflexivity|].
  destruct ev as [| |q [[|c r]|]|e]; simpl; rewrite IH; reflexivity.
Qed.

Lemma latest_reply_snoc h q r : latest_reply (h ++ [(q, r)]) = Some r.
Proof. unfold latest_reply. rewrite rev_app_distr. reflexivity. Qed.

(** The state of the loop after the events [evs]. *)
Lemma main_loop_history tbl lines : forall evs0 s w,
  history s = exchanges_of evs0 ->
  last_reply s = latest_reply (history s) ->
  match main_loop tbl lines s w with
  | (evs, s', _) =>
      history s' = exchanges_of (evs0 ++ evs) /\
      last_reply s' = latest_reply (history s')
  end.
Proof.
  induction lines as [|line rest IH]; intros evs0 s w Hh Hl.
  - simpl. rewrite app_nil_r. auto.
  - simpl. pose proof (main_iter_cases tbl line s w) as C.
    destruct (main_iter tbl line s w) as [[ev s1] w1].
    assert (Step : history s1 = exchanges_of (evs0 ++ [ev]) /\
                   last_reply s1 = latest_reply (history s1)).
    { rewrite exchanges_of_app.
      destruct ev as [| |q [[|c r]|]|e]; simpl;
        try (subst s1; rewrite app_nil_r; auto; fail);
        try (destruct C as [Cl Ch]; rewrite Cl, Ch, app_nil_r; auto; fail).
      destruct C as [-> [D ->]]. simpl. rewrite Hh. split; [reflexivity|].
      rewrite <- Hh, latest_reply_snoc. reflexivity. }
    destruct Step as [S1 S2].
    destruct ev as [| |q reply|e]; try (rewrite <- S1; auto; fail).
    + specialize (IH (evs0 ++ [Command]) s1 w1 S1 S2).
      destruct (main_loop tbl rest s1 w1) as [[evs s2] w2].
      rewrite <- app_assoc in IH. exact IH.
    + specialize (IH (evs0 ++ [Exchange q reply]) s1 w1 S1 S2).
      destruct (main_loop tbl rest s1 w1) as [[evs s2] w2].
      rewrite <- app_assoc in IH. exact IH.
Qed.

Lemma set_model_well_formed key b n w :
  well_formed_bot key b -> well_formed_bot key (fst (set_model b n w)).
Proof.
  intros [K [M S]]. unfold set_model.
  destruct (mem n supported_models) eqn:E; [|repeat split; assumption].
  apply mem_In in E. repeat split; assumption.
Qed.

(** An iteration keeps the key, keeps the active model on the allow-list
    and never sets an empty system instruction. *)
Lemma main_iter_bot key tbl line s w :
  well_formed_bot key (bot s) ->
  well_formed_bot key (bot (snd (fst (main_iter tbl line s w)))).
Proof.
  intros W. unfold main_iter, write_or_report, write_and_confirm, print_or_crash.
  destruct (dispatch tbl (strip line));
    repeat match goal with
           | |- context [match split1 ?x with _ => _ end] =>
               destruct (split1 x) as [|? [|? [|? ?]]] eqn:?
           | |- context [set_model ?b ?n ?w] =>
               pose proof (set_model_well_formed key b n w W);
               destruct (set_model b n w)
           | |- context [write_file ?f ?c ?w] =>
               destruct (write_file f c w) as [[?|] ?]
           | |- context [rich_print ?p ?w] =>
               destruct (rich_print p w) as [[?|] ?]
           | |- context [history_panels ?i ?h ?w] =>
               destruct (history_panels i h w) as [[?|] ?]
           | |- context [match last_reply ?s with _ => _ end] =>
               destruct (last_reply s) as [[|? ?]|]
           | |- context [match history ?s with _ => _ end] =>
               destruct (history s)
           | |- context [gemini_query ?b ?p ?r ?d ?w] =>
               destruct (gemini_query b p r d w) as [[[[|? ?]|]|?] ?]
           end;
    cbn [fst snd bot with_bot] in *; try assumption;
    destruct W as [K [M _]]; repeat split; cbn [api_key model system_prompt];
      auto;
    match goal with
    | H : split1 _ = [_; ?a] |- _ =>
        destruct (split1_argument _ _ _ H) as [c [u ->]]
    end;
    discriminate.
Qed.

(** The POSTs of an iteration all carry the request built from the
    browser and the stripped line; a plain prompt issues at least one. *)
Lemma main_iter_posts tbl line s w :
  exists n,
    posted (snd (main_iter tbl line s w))
    = repeat {| url := api_url (bot s);
                contents := build_contents (bot s) (strip line);
                timeout := 30 |} n ++ posted w /\
    (n <= 3)%nat /\
    (dispatch tbl (strip line) = BPrompt -> (1 <= n)%nat).
Proof.
  destruct (dispatch tbl (strip line)) eqn:D;
    try (exists 0%nat;
         destruct (main_iter_offline tbl line s w) as [[_ [P _]] _];
         [rewrite D; discriminate
         | split; [exact P | split; [lia | discriminate]]]).
  destruct (attempts_posted default_retries default_delay
              {| url := api_url (bot s);
                 contents := build_contents (bot s) (strip line);
                 timeout := 30 |} 3 1 (console_print thinking w))
    as [n [P Hn]].
  exists n. rewrite (main_iter_prompt _ _ _ _ D), gemini_query_attempts.
  change (Z.to_nat default_retries) with 3%nat.
  split; [|simpl in Hn; lia].
  destruct (attempts _ _ _ _ _ _) as [[[[|c r]|]|e] w1]; try exact P.
  unfold rich_print. destruct (print_error w1 _); exact P.
Qed.

Lemma well_formed_bot_targets key b contents_ :
  well_formed_bot key b ->
  targets key {| url := api_url b; contents := contents_; timeout := 30 |}.
Proof.
  intros [K [M _]]. exists (model b). unfold api_url. rewrite K.
  repeat split. exact M.
Qed.

Lemma main_loop_targets key tbl lines : forall s w,
  well_formed_bot key (bot s) ->
  match main_loop tbl lines s w with
  | (_, s', w') =>
      well_formed_bot key (bot s') /\
      exists new, posted w' = new ++ posted w /\ Forall (targets key) new
  end.
Proof.
  induction lines as [|line rest IH]; intros s w W; simpl.
  - split; [exact W|]. exists []. split; [reflexivity | constructor].
  - pose proof (main_iter_bot key tbl line s w W) as W1.
    destruct (main_iter_posts tbl line s w) as [n [P _]].
    assert (F : Forall (targets key)
                  (repeat {| url := api_url (bot s);
                             contents := build_contents (bot s) (strip line);
                             timeout := 30 |} n)).
    { apply Forall_forall. intros x Hx. apply repeat_spec in Hx. subst x.
      apply well_formed_bot_targets. exact W. }
    destruct (main_iter tbl line s w) as [[ev s1] w1]. cbn [fst snd] in *.
    assert (Stop : well_formed_bot key (bot s1) /\
                   exists new, posted w1 = new ++ posted w
                               /\ Forall (targets key) new)
      by (split; [exact W1 | eauto]).
    destruct ev as [| |q reply|e]; try exact Stop;
      specialize (IH s1 w1 W1);
      destruct (main_loop tbl rest s1 w1) as [[evs s2] w2];
      destruct IH as [W2 [new [P2 F2]]];
      (split; [exact W2|]);
      exists (new ++ repeat {| url := api_url (bot s);
                               contents := build_contents (bot s) (strip line);
                               timeout := 30 |} n);
      (split; [rewrite P2, P, app_assoc; reflexivity
              | apply Forall_app; split; assumption]).
Qed.

(** X11. Without a key in the environment (absent or empty) [main] only
    prints its message: no line is read and no POST is issued.  With a
    key, at any point of the run the browser holds that key, its active
    model is one of the two of the allow-list, its system instruction is
    unset or non-empty, and every POST of the run went to the endpoint of
    a supported model with that key and a timeout of 30. *)
Theorem main_posts_to_supported_models tbl env_key lines w :
  match main tbl env_key lines w with
  | (None, w') =>
      (env_key = None \/ env_key = Some []) /\
      posted w' = posted w /\
      console w'
      = Markup (lit "[bold red]API key not set in .env[/bold red]") :: console w
  | (Some (_, s), w') =>
      exists key,
        env_key = Some key /\ key <> [] /\
        well_formed_bot key (bot s) /\
        exists new, posted w' = new ++ posted w /\ Forall (targets key) new
  end.
Proof.
  unfold main, GeminiBrowser_init.
  destruct env_key as [[|c k]|]; try (repeat split; auto; fail).
  pose proof (main_loop_targets (c :: k) tbl lines
                (initial {| api_key := c :: k; model := lit "gemini-1.5-flash";
                            system_prompt := None |})
                (console_print welcome w)) as H.
  destruct (main_loop _ _ _ _) as [[evs s] w'].
  destruct H as [W [new [P F]]].
  - repeat split; [left; reflexivity | discriminate].
  - exists (c :: k). split; [reflexivity|]. split; [discriminate|].
    split; [exact W|]. exists new. split; assumption.
Qed.

(** X15. A command word typed without an argument, that is an input with
    no whitespace that starts with [/model], [/save], [/export] or
    [/system], only prints the usage hint of the command: the session,
    the files and the network are as before. *)
Theorem command_without_argument tbl line s w :
  takes_argument (dispatch tbl (strip line)) = true ->
  no_space (strip line) = true ->
  main_iter tbl line s w
  = (Command, s,
     console_print (Markup (lit "[yellow]Usage:[/yellow] "
                            ++ usage (dispatch tbl (strip line)))) w).
Proof.
  intros T N.
  assert (Sp : split1 (strip line) = [strip line]).
  { apply split1_single; [|exact N]. intros E. rewrite E in T. discriminate T. }
  unfold main_iter.
  destruct (dispatch tbl (strip line)); try discriminate T;
    rewrite Sp; reflexivity.
Qed.

Lemma command_without_argument_witness :
  main_iter Fixture.ascii_only (lit " /save ") (initial Fixture.flash)
    (Fixture.fresh (fun _ => Failed []))
  = (Command, initial Fixture.flash,
     console_print (Markup (lit "[yellow]Usage:[/yellow] /save filename.txt"))
       (Fixture.fresh (fun _ => Failed []))).
Proof.
  apply (command_without_argument Fixture.ascii_only (lit " /save ")
           (initial Fixture.flash) (Fixture.fresh (fun _ => Failed []))).
  - reflexivity.
  - reflexivity.
Defined.

(** X17. A model switch takes effect at the next request: after
    [/model NAME], the next plain prompt is POSTed to the endpoint of NAME
    (stripped) when NAME is on the allow-list, and to the endpoint of the
    model that was active before when it is not; the key and the payload
    are not affected. *)
Theorem model_switch_changes_the_endpoint tbl l1 l2 s w cmd a :
  dispatch tbl (strip l1) = BModel ->
  split1 (strip l1) = [cmd; a] ->
  dispatch tbl (strip l2) = BPrompt ->
  match main_iter tbl l1 s w with
  | (_, s1, w1) =>
      exists n,
        (1 <= n <= 3)%nat /\
        posted (snd (main_iter tbl l2 s1 w1))
        = repeat
            {| url := lit "https://generativelanguage.googleapis.com/v1beta/models/"
                      ++ (if mem (strip a) supported_models
                          then strip a else model (bot s))
                      ++ lit ":generateContent?key=" ++ api_key (bot s);
               contents := build_contents (bot s) (strip l2);
               timeout := 30 |} n ++ posted w
  end.
Proof.
  intros D1 Sp D2.
  assert (E : main_iter tbl l1 s w
              = (Command, with_bot s (fst (set_model (bot s) (strip a) w)),
                 snd (set_model (bot s) (strip a) w))).
  { unfold main_iter. rewrite D1, Sp.
    destruct (set_model (bot s) (strip a) w). reflexivity. }
  rewrite E.
  match goal with
  | |- exists n, _ /\ posted (snd (main_iter _ _ ?s1 ?w1)) = _ =>
      destruct (main_iter_posts tbl l2 s1 w1) as [n [P [Hle Hge]]]
  end.
  exists n. split; [split; [apply Hge; exact D2 | exact Hle]|].
  rewrite P. unfold set_model, with_bot, api_url, build_contents.
  destruct (mem (strip a) supported_models); reflexivity.
Qed.

Lemma model_switch_changes_the_endpoint_witness :
  match main_iter Fixture.ascii_only (lit "/model gemini-1.5-pro")
          (initial Fixture.flash)
          (Fixture.fresh (fun _ => Fixture.http 404 (NotJSON []))) with
  | (_, s1, w1) =>
      exists n,
        (1 <= n <= 3)%nat /\
        posted (snd (main_iter Fixture.ascii_only (lit "hi") s1 w1))
        = repeat
            {| url := lit "https://generativelanguage.googleapis.com/v1beta/models/"
                      ++ (if mem (strip (lit "gemini-1.5-pro")) supported_models
                          then strip (lit "gemini-1.5-pro")
                          else model (bot (initial Fixture.flash)))
                      ++ lit ":generateContent?key="
                      ++ api_key (bot (initial Fixture.flash));
               contents := build_contents (bot (initial Fixture.flash))
                             (strip (lit "hi"));
               timeout := 30 |} n
          ++ posted (Fixture.fresh (fun _ => Fixture.http 404 (NotJSON [])))
  end.
Proof.
  apply (model_switch_changes_the_endpoint Fixture.ascii_only
           (lit "/model gemini-1.5-pro") (lit "hi") (initial Fixture.flash)
           (Fixture.fresh (fun _ => Fixture.http 404 (NotJSON [])))
           (lit "/model") (lit "gemini-1.5-pro")); reflexivity.
Defined.

Lemma numbered_panels_nth h : forall i k q r,
  nth_error h k = Some (q, r) ->
  nth_error (numbered_panels i h) k
  = Some (exchange_panel (i + Z.of_nat k) q r).
Proof.
  induction h as [|[q0 r0] h IH]; intros i k q r; destruct k as [|k];
    cbn [nth_error numbered_panels]; try discriminate.
  - intros E. injection E as -> ->.
    replace (i + Z.of_nat 0) with i by lia. reflexivity.
  - intros E. rewrite (IH (i + 1) k q r E).
    replace (i + Z.of_nat (S k)) with (i + 1 + Z.of_nat k) by lia.
    reflexivity.
Qed.

Lemma numbered_panels_length h : forall i,
  length (numbered_panels i h) = length h.
Proof.
  induction h as [|[q r] h IH]; intros i; simpl; [reflexivity|].
  rewrite IH. reflexivity.
Qed.

(** X19. [exit] and [quit] are recognised whatever the case of their
    letters and with blanks around them, and they stop the loop at once:
    the session is unchanged, no POST is issued and the lines that follow
    are not read. *)
Theorem exit_stops_the_loop tbl line rest s w :
  forallb is_ascii (strip line) = true ->
  map lower_ascii (strip line) = lit "exit"
  \/ map lower_ascii (strip line) = lit "quit" ->
  main_loop tbl (line :: rest) s w
  = ([Quit], s, console_print (Markup (lit "[bold red]Goodbye![/bold red]")) w).
Proof.
  intros A L.
  assert (D : dispatch tbl (strip line) = BExit).
  { unfold dispatch, lower. rewrite A. destruct L as [-> | ->]; reflexivity. }
  simpl. unfold main_iter. rewrite D. reflexivity.
Qed.

Lemma exit_stops_the_loop_witness :
  main_loop Fixture.ascii_only [lit "  QuIt "; lit "hello"]
    (initial Fixture.flash) (Fixture.fresh (fun _ => Failed []))
  = ([Quit], initial Fixture.flash,
     console_print (Markup (lit "[bold red]Goodbye![/bold red]"))
       (Fixture.fresh (fun _ => Failed []))).
Proof.
  apply (exit_stops_the_loop Fixture.ascii_only (lit "  QuIt ") [lit "hello"]
           (initial Fixture.flash) (Fixture.fresh (fun _ => Failed []))).
  - reflexivity.
  - right. reflexivity.
Defined.

(** An exchange is the event of a plain prompt, for the stripped line. *)
Lemma main_iter_exchange tbl line s w q reply :
  fst (fst (main_iter tbl line s w)) = Exchange q reply ->
  q = strip line /\ dispatch tbl q = BPrompt.
Proof.
  destruct (dispatch tbl (strip line)) eqn:D;
    try (destruct (main_iter_offline tbl line s w) as [_ [E | [E | [m E]]]];
         [rewrite D; discriminate | | | ]; rewrite E; discriminate).
  rewrite (main_iter_prompt _ _ _ _ D).
  destruct (gemini_query _ _ _ _ _) as [[[[|c r]|]|e] w1];
    try (unfold rich_print; destruct (print_error w1 _));
    cbn [fst]; intros E; try discriminate E;
    injection E as <- _; (split; [reflexivity | exact D]).
Qed.

Lemma last_build_contents b q : last (build_contents b q) [] = q.
Proof.
  unfold build_contents. destruct (system_prompt b) as [[|c sp]|]; reflexivity.
Qed.

(** The events of a run, line by line, and its POSTs. *)
Lemma main_loop_events tbl lines : forall s w,
  match main_loop tbl lines s w with
  | (evs, _, w') =>
      exists new,
        posted w' = new ++ posted w /\
        forall i q reply,
          nth_error evs i = Some (Exchange q reply) ->
          exists line,
            nth_error lines i = Some line /\ q = strip line /\
            dispatch tbl q = BPrompt /\
            exists rq, In rq new /\ last (contents rq) [] = q
  end.
Proof.
  induction lines as [|line rest IH]; intros s w.
  - simpl. exists []. split; [reflexivity|].
    intros [|i] q reply E; discriminate E.
  - simpl. destruct (main_iter_posts tbl line s w) as [n [P [_ Hn]]].
    pose proof (main_iter_exchange tbl line s w) as X.
    destruct (main_iter tbl line s w) as [[ev s1] w1]. cbn [fst snd] in *.
    assert (Here : forall q reply,
               ev = Exchange q reply ->
               q = strip line /\ dispatch tbl q = BPrompt /\
               exists rq, In rq (repeat
                                   {| url := api_url (bot s);
                                      contents := build_contents (bot s) (strip line);
                                      timeout := 30 |} n)
                          /\ last (contents rq) [] = q).
    { intros q reply ->. destruct (X q reply eq_refl) as [-> D].
      split; [reflexivity|]. split; [exact D|].
      specialize (Hn D). destruct n as [|n]; [lia|].
      eexists. split; [left; reflexivity|]. apply last_build_contents. }
    assert (Stop : exists new,
               posted w1 = new ++ posted w /\
               forall i q reply,
                 nth_error [ev] i = Some (Exchange q reply) ->
                 exists l,
                   nth_error (line :: rest) i = Some l /\ q = strip l /\
                   dispatch tbl q = BPrompt /\
                   exists rq, In rq new /\ last (contents rq) [] = q).
    { eexists. split; [exact P|].
      intros [|[|i]] q reply E; try discriminate E.
      injection E as ->. exists line.
      destruct (Here q reply eq_refl) as [Hq [D R]]. auto. }
    destruct ev as [| |q0 reply0|e]; try exact Stop;
      specialize (IH s1 w1);
      destruct (main_loop tbl rest s1 w1) as [[evs s2] w2];
      destruct IH as [new [P2 T]];
      exists (new ++ repeat {| url := api_url (bot s);
                               contents := build_contents (bot s) (strip line);
                               timeout := 30 |} n);
      (split; [rewrite P2, P, app_assoc; reflexivity|]);
      intros [|i] q reply E.
    + discriminate E.
    + destruct (T i q reply E) as [l [L [Hq [D [rq [I La]]]]]].
      exists l. repeat split; auto. exists rq. split; [|exact La].
      apply in_or_app. left. exact I.
    + injection E as -> ->. exists line.
      destruct (Here q reply eq_refl) as [Hq [D [rq [I La]]]].
      repeat split; auto. exists rq. split; [|exact La].
      apply in_or_app. right. exact I.
    + destruct (T i q reply E) as [l [L [Hq [D [rq [I La]]]]]].
      exists l. repeat split; auto. exists rq. split; [|exact La].
      apply in_or_app. left. exact I.
Qed.

(** X9. After any number of lines, [history] is exactly the list of the
    exchanges that got a non-empty reply and whose panel was displayed, in
    the order they happened, and [last_reply] is the reply of the latest
    of them, [None] when there is none.  The exchange of the [i]-th event
    is that of the [i]-th line: its prompt is that line stripped, it took
    the plain-prompt branch, and a POST of the run carried it as its last
    block. *)
Theorem history_records_exchanges tbl lines b w :
  match main_loop tbl lines (initial b) w with
  | (evs, s, w') =>
      history s = exchanges_of evs /\
      last_reply s = latest_reply (history s) /\
      exists new,
        posted w' = new ++ posted w /\
        forall i q reply,
          nth_error evs i = Some (Exchange q reply) ->
          exists line,
            nth_error lines i = Some line /\ q = strip line /\
            dispatch tbl q = BPrompt /\
            exists rq, In rq new /\ last (contents rq) [] = q
  end.
Proof.
  pose proof (main_loop_history tbl lines [] (initial b) w eq_refl eq_refl) as H.
  pose proof (main_loop_events tbl lines (initial b) w) as E.
  destruct (main_loop tbl lines (initial b) w) as [[evs s] w'].
  destruct H as [Hh Hl]. simpl in Hh. auto.
Qed.

Lemma history_records_exchanges_witness :
  exists line,
    nth_error [lit "/help"; lit " ping "] 1 = Some line /\
    lit "ping" = strip line /\
    dispatch Fixture.ascii_only (lit "ping") = BPrompt.
Proof.
  pose proof (history_records_exchanges Fixture.ascii_only
                [lit "/help"; lit " ping "] Fixture.flash
                (Fixture.fresh (fun _ => Fixture.http 200
                   (Decoded (Fixture.ok_body (lit "pong")))))) as H.
  cbv beta iota delta [main_loop] in H.
  destruct (main_iter Fixture.ascii_only (lit "/help") (initial Fixture.flash) _)
    as [[ev1 s1] w1] eqn:E1.
  vm_compute in E1. injection E1 as <- <- <-.
  destruct (main_iter Fixture.ascii_only (lit " ping ") _ _)
    as [[ev2 s2] w2] eqn:E2.
  vm_compute in E2. injection E2 as <- <- <-.
  destruct H as [_ [_ [new [_ T]]]].
  destruct (T 1%nat (lit "ping") (Some (lit "pong")) eq_refl)
    as [line [L [Q [D _]]]].
  exists line. auto.
Defined.

(** The two branches that write a file, as equations. *)
Lemma main_iter_save tbl line s w cmd a :
  dispatch tbl (strip line) = BSave ->
  split1 (strip line) = [cmd; a] ->
  main_iter tbl line s w =
    match last_reply s with
    | Some (c :: r) =>
        write_or_report (strip a) (c :: r)
          (Markup (lit "[bold green]Reply saved to " ++ strip a
                   ++ lit "[/bold green]"))
          (lit "[bold red]Error saving file:[/bold red] ") s w
    | _ => (Command, s,
            console_print (Markup (lit "[yellow]No reply to save yet.[/yellow]")) w)
    end.
Proof. intros D Sp. unfold main_iter. rewrite D, Sp. reflexivity. Qed.

Lemma main_iter_export tbl line s w cmd a :
  dispatch tbl (strip line) = BExport ->
  split1 (strip line) = [cmd; a] ->
  main_iter tbl line s w =
    write_or_report (strip a) (export_text (history s))
      (Markup (lit "[bold green]Conversation exported to "
               ++ strip a ++ lit "[/bold green]"))
      (lit "[bold red]Error exporting file:[/bold red] ") s w.
Proof. intros D Sp. unfold main_iter. rewrite D, Sp. reflexivity. Qed.

(** A file that opens and is written in full holds the content, whatever
    becomes of the prints that follow, and the session is kept. *)
Lemma write_or_report_written filename content done failed s w :
  open_error w filename = None ->
  write_error w filename content = None ->
  snd (fst (write_or_report filename content done failed s w)) = s /\
  files (snd (write_or_report filename content done failed s w))
  = (filename, content) :: files w.
Proof.
  intros O Wr. unfold write_or_report, write_and_confirm, write_file.
  rewrite O, Wr.
  pose proof (rich_print_files done
                (with_files w ((filename, content) :: files w))) as F1.
  destruct (rich_print done _) as [[m|] w1];
    unfold with_files in F1; cbn [snd files] in F1;
    [|split; [reflexivity | exact F1]].
  unfold print_or_crash.
  pose proof (rich_print_files (Markup (failed ++ failure_text m)) w1) as F2.
  destruct (rich_print (Markup (failed ++ failure_text m)) w1) as [[m2|] w2];
    cbn [fst snd] in *; (split; [reflexivity | congruence]).
Qed.

(** A file that cannot be opened is left alone; the handler prints the
    text of the error after [failed]. *)
Lemma write_or_report_unopened filename content done failed s w err :
  open_error w filename = Some err ->
  write_or_report filename content done failed s w
  = print_or_crash (Markup (failed ++ err)) s w.
Proof.
  intros O. unfold write_or_report, write_and_confirm, write_file.
  rewrite O. reflexivity.
Qed.

(** X12. [/save FILE] writes the last reply, as it is, to FILE when there
    is one, the file opens and the write succeeds; with no reply yet it
    writes no file and says so.  Either way the session is unchanged. *)
Theorem save_writes_last_reply tbl line s w cmd a :
  dispatch tbl (strip line) = BSave ->
  split1 (strip line) = [cmd; a] ->
  open_error w (strip a) = None ->
  (forall reply, write_error w (strip a) reply = None) ->
  snd (fst (main_iter tbl line s w)) = s /\
  match last_reply s with
  | Some (c :: r) =>
      files (snd (main_iter tbl line s w)) = (strip a, c :: r) :: files w
  | _ =>
      files (snd (main_iter tbl line s w)) = files w /\
      console (snd (main_iter tbl line s w))
      = Markup (lit "[yellow]No reply to save yet.[/yellow]") :: console w
  end.
Proof.
  intros D Sp O Wr. rewrite (main_iter_save _ _ _ _ _ _ D Sp).
  destruct (last_reply s) as [[|c r]|]; try (repeat split; fail).
  apply write_or_report_written; [exact O | apply Wr].
Qed.

Lemma save_writes_last_reply_witness :
  files (snd (main_iter Fixture.ascii_only (lit "/save  out.txt ")
                {| bot := Fixture.flash; last_reply := Some (lit "pong");
                   history := [(lit "ping", lit "pong")] |}
                (Fixture.fresh (fun _ => Failed []))))
  = [(lit "out.txt", lit "pong")].
Proof.
  apply (proj2 (save_writes_last_reply Fixture.ascii_only (lit "/save  out.txt ")
                  {| bot := Fixture.flash; last_reply := Some (lit "pong");
                     history := [(lit "ping", lit "pong")] |}
                  (Fixture.fresh (fun _ => Failed []))
                  (lit "/save") (lit "out.txt")
                  ltac:(reflexivity) ltac:(reflexivity) ltac:(reflexivity)
                  ltac:(reflexivity))).
Defined.

(** X13. After any run, [/export FILE] with a file that opens and is
    written in full leaves in FILE one block "USER: prompt / GEMINI: reply
    / blank line" for each exchange that was recorded during the run,
    oldest first, and nothing else; with no exchange yet the file is
    written empty.  The session is unchanged. *)
Theorem export_writes_the_conversation tbl lines b w line cmd a :
  match main_loop tbl lines (initial b) w with
  | (evs, s, w1) =>
      dispatch tbl (strip line) = BExport ->
      split1 (strip line) = [cmd; a] ->
      open_error w1 (strip a) = None ->
      (forall content, write_error w1 (strip a) content = None) ->
      snd (fst (main_iter tbl line s w1)) = s /\
      files (snd (main_iter tbl line s w1))
      = (strip a,
         flat_map (fun qr => lit "USER: " ++ fst qr ++ nl
                             ++ lit "GEMINI: " ++ snd qr ++ nl ++ nl)
                  (exchanges_of evs)) :: files w1
  end.
Proof.
  pose proof (main_loop_history tbl lines [] (initial b) w eq_refl eq_refl) as H.
  destruct (main_loop tbl lines (initial b) w) as [[evs s] w1].
  destruct H as [Hh _]. simpl in Hh.
  intros D Sp O Wr. rewrite (main_iter_export _ _ _ _ _ _ D Sp).
  rewrite <- Hh. apply write_or_report_written; [exact O | apply Wr].
Qed.

Lemma export_writes_the_conversation_witness :
  match main_loop Fixture.ascii_only [lit "ping"] (initial Fixture.flash)
          (Fixture.fresh (fun _ => Fixture.http 200
             (Decoded (Fixture.ok_body (lit "pong"))))) with
  | (evs, s, w1) =>
      files (snd (main_iter Fixture.ascii_only (lit "/export all.txt") s w1))
      = [(lit "all.txt",
          lit "USER: ping" ++ nl ++ lit "GEMINI: pong" ++ nl ++ nl)]
  end.
Proof.
  pose proof (export_writes_the_conversation Fixture.ascii_only [lit "ping"]
                Fixture.flash
                (Fixture.fresh (fun _ => Fixture.http 200
                   (Decoded (Fixture.ok_body (lit "pong")))))
                (lit "/export all.txt") (lit "/export") (lit "all.txt")) as H.
  destruct (main_loop Fixture.ascii_only [lit "ping"] (initial Fixture.flash) _)
    as [[evs s] w1] eqn:E.
  vm_compute in E. injection E as <- <- <-.
  apply (proj2 (H ltac:(reflexivity) ltac:(reflexivity) ltac:(reflexivity)
                  ltac:(reflexivity))).
Defined.

(** X14. Files are written by [/save] and [/export] only.  When the file
    named to one of them cannot be opened, the session and the files are
    as before and the handler prints the text of the error; if the
    console accepts that line the iteration is a [Command] and the loop
    goes on. *)
Theorem files_change_only_on_save_and_export tbl line s w :
  (dispatch tbl (strip line) <> BSave ->
   dispatch tbl (strip line) <> BExport ->
   files (snd (main_iter tbl line s w)) = files w) /\
  (forall cmd a err,
     dispatch tbl (strip line) = BSave \/ dispatch tbl (strip line) = BExport ->
     split1 (strip line) = [cmd; a] ->
     open_error w (strip a) = Some err ->
     snd (fst (main_iter tbl line s w)) = s /\
     files (snd (main_iter tbl line s w)) = files w /\
     (dispatch tbl (strip line) = BExport
      \/ (exists c r, last_reply s = Some (c :: r)) ->
      printable w (write_failure (dispatch tbl (strip line)) ++ err) = true ->
      main_iter tbl line s w
      = (Command, s,
         console_print
           (Markup (write_failure (dispatch tbl (strip line)) ++ err)) w))).
Proof.
  split.
  - intros NS NE.
    unfold main_iter, write_or_report, write_and_confirm, print_or_crash.
    destruct (dispatch tbl (strip line)) eqn:D; try contradiction;
      try (split_iter; frames; cbn [fst snd];
           first [ reflexivity | assumption ]; fail).
    pose proof (attempts_files default_retries default_delay
                  {| url := api_url (bot s);
                     contents := build_contents (bot s) (strip line);
                     timeout := 30 |} 3 1 (console_print thinking w)) as F.
    rewrite gemini_query_attempts.
    change (Z.to_nat default_retries) with 3%nat.
    destruct (attempts _ _ _ _ _ _) as [[[[|c r]|]|e] w1]; try exact F.
    cbn [snd] in F.
    pose proof (rich_print_files
                  (Panel (c :: r) (lit "Gemini Reply") (lit "green")) w1) as F1.
    destruct (rich_print _ w1) as [[m|] w2]; cbn [snd] in *;
      rewrite F1; exact F.
  - intros cmd a err Dd Sp O.
    assert (R : forall failed,
              snd (fst (print_or_crash (Markup (failed ++ err)) s w)) = s /\
              files (snd (print_or_crash (Markup (failed ++ err)) s w))
              = files w /\
              (printable w (failed ++ err) = true ->
               print_or_crash (Markup (failed ++ err)) s w
               = (Command, s, console_print (Markup (failed ++ err)) w))).
    { intros failed. unfold print_or_crash, rich_print, printable.
      cbn [markup_of]. destruct (print_error w (failed ++ err));
        repeat split; discriminate. }
    destruct Dd as [D | D]; rewrite D.
    + rewrite (main_iter_save _ _ _ _ _ _ D Sp).
      destruct (last_reply s) as [[|c r]|] eqn:L;
        try (repeat split; intros [X | [c' [r' X]]]; congruence).
      rewrite (write_or_report_unopened _ _ _ _ _ _ _ O).
      destruct (R (write_failure BSave)) as [R1 [R2 R3]].
      repeat split; try assumption. intros _. exact R3.
    + rewrite (main_iter_export _ _ _ _ _ _ D Sp).
      rewrite (write_or_report_unopened _ _ _ _ _ _ _ O).
      destruct (R (write_failure BExport)) as [R1 [R2 R3]].
      repeat split; try assumption. intros _. exact R3.
Qed.

Lemma files_change_only_on_save_and_export_witness :
  files (snd (main_iter Fixture.ascii_only (lit "hello")
                (initial Fixture.flash)
                (Fixture.fresh (fun _ => Fixture.http 200
                   (Decoded (Fixture.ok_body (lit "pong")))))))
  = [] /\
  main_iter Fixture.ascii_only (lit "/export /nowhere/out.txt")
    (initial Fixture.flash)
    {| net := fun _ => Failed []; print_error := fun _ => None;
       open_error := fun _ => Some (lit "No such file or directory");
       write_error := fun _ _ => None; posted := []; slept := [];
       console := []; files := [] |}
  = (Command, initial Fixture.flash,
     console_print
       (Markup (write_failure BExport ++ lit "No such file or directory"))
       {| net := fun _ => Failed []; print_error := fun _ => None;
          open_error := fun _ => Some (lit "No such file or directory");
          write_error := fun _ _ => None; posted := []; slept := [];
          console := []; files := [] |}).
Proof.
  split.
  - apply (proj1 (files_change_only_on_save_and_export Fixture.ascii_only
                    (lit "hello") (initial Fixture.flash)
                    (Fixture.fresh (fun _ => Fixture.http 200
                       (Decoded (Fixture.ok_body (lit "pong"))))))).
    + discriminate.
    + discriminate.
  - apply (proj2 (files_change_only_on_save_and_export Fixture.ascii_only
                    (lit "/export /nowhere/out.txt") (initial Fixture.flash)
                    {| net := fun _ => Failed []; print_error := fun _ => None;
                       open_error := fun _ => Some (lit "No such file or directory");
                       write_error := fun _ _ => None; posted := []; slept := [];
                       console := []; files := [] |})
             (lit "/export") (lit "/nowhere/out.txt")
             (lit "No such file or directory")
             ltac:(right; reflexivity) ltac:(reflexivity) ltac:(reflexivity)).
    + left. reflexivity.
    + reflexivity.
Defined.

(** X16. A system instruction takes effect at once and stays: after
    [/system TEXT], whose confirmation the console accepts, the request of
    the next plain prompt has two blocks, "[SYSTEM]: " followed by the
    stripped TEXT first, then the prompt, and goes to the same URL as
    before. *)
Theorem system_instruction_is_prepended tbl l1 l2 s w cmd a :
  dispatch tbl (strip l1) = BSystem ->
  split1 (strip l1) = [cmd; a] ->
  printable w (lit "[cyan]System instruction set:[/cyan] " ++ strip a) = true ->
  dispatch tbl (strip l2) = BPrompt ->
  match main_iter tbl l1 s w with
  | (ev, s1, w1) =>
      ev = Command /\
      system_prompt (bot s1) = Some (strip a) /\
      exists n,
        (1 <= n <= 3)%nat /\
        posted (snd (main_iter tbl l2 s1 w1))
        = repeat {| url := api_url (bot s);
                    contents := [lit "[SYSTEM]: " ++ strip a; strip l2];
                    timeout := 30 |} n ++ posted w
  end.
Proof.
  intros D1 Sp Hp D2.
  assert (E : main_iter tbl l1 s w
              = (Command,
                 with_bot s {| api_key := api_key (bot s); model := model (bot s);
                               system_prompt := Some (strip a) |},
                 console_print
                   (Markup (lit "[cyan]System instruction set:[/cyan] "
                            ++ strip a)) w)).
  { unfold main_iter. rewrite D1, Sp. unfold print_or_crash.
    rewrite (accepted_print _ _ _ Hp) by reflexivity. reflexivity. }
  rewrite E. split; [reflexivity|]. split; [reflexivity|].
  match goal with
  | |- exists n, _ /\ posted (snd (main_iter _ _ ?s1 ?w1)) = _ =>
      destruct (main_iter_posts tbl l2 s1 w1) as [n [P [Hle Hge]]]
  end.
  exists n. split; [split; [apply Hge; exact D2 | exact Hle]|].
  rewrite P. unfold build_contents, with_bot. cbn [bot system_prompt].
  destruct (split1_argument _ _ _ Sp) as [c [u ->]]. reflexivity.
Qed.

Lemma system_instruction_is_prepended_witness :
  match main_iter Fixture.ascii_only (lit "/system be brief ")
          (initial Fixture.flash)
          (Fixture.fresh (fun _ => Fixture.http 404 (NotJSON []))) with
  | (ev, s1, w1) =>
      ev = Command /\
      system_prompt (bot s1) = Some (strip (lit "be brief")) /\
      exists n,
        (1 <= n <= 3)%nat /\
        posted (snd (main_iter Fixture.ascii_only (lit "hi") s1 w1))
        = repeat {| url := api_url (bot (initial Fixture.flash));
                    contents := [lit "[SYSTEM]: " ++ strip (lit "be brief");
                                 strip (lit "hi")];
                    timeout := 30 |} n
          ++ posted (Fixture.fresh (fun _ => Fixture.http 404 (NotJSON [])))
  end.
Proof.
  apply (system_instruction_is_prepended Fixture.ascii_only
           (lit "/system be brief ") (lit "hi") (initial Fixture.flash)
           (Fixture.fresh (fun _ => Fixture.http 404 (NotJSON [])))
           (lit "/system") (lit "be brief")); reflexivity.
Defined.

(** The panels that the console accepts are printed in order. *)
Lemma history_panels_accepted h : forall i w,
  Forall (fun p => printable w (markup_of p) = true) (numbered_panels i h) ->
  exists w', history_panels i h w = (None, w') /\
             console w' = rev (numbered_panels i h) ++ console w /\
             files w' = files w.
Proof.
  induction h as [|[q r] h IH]; intros i w F.
  - exists w. repeat split.
  - cbn [history_panels numbered_panels] in *.
    apply Forall_cons_iff in F. destruct F as [F1 F2].
    unfold rich_print. unfold printable in F1.
    destruct (print_error w (markup_of (exchange_panel i q r)));
      [discriminate|].
    destruct (IH (i + 1) (console_print (exchange_panel i q r) w))
      as [w' [E [C Fi]]]; [exact F2|].
    exists w'. split; [exact E|]. split; [|exact Fi].
    rewrite C. cbn [rev console console_print]. rewrite <- app_assoc.
    reflexivity.
Qed.

(** X18. [/history], when the console accepts the panels, prints one
    panel per recorded exchange, in the order of the history, and the
    [k]-th exchange (from 0) is titled "Exchange k+1" and shows its prompt
    and its reply; with an empty history it prints the one message
    instead.  Session and files are unchanged. *)
Theorem history_is_listed_in_order tbl line s w :
  dispatch tbl (strip line) = BHistory ->
  Forall (fun p => printable w (markup_of p) = true)
         (numbered_panels 1 (history s)) ->
  fst (main_iter tbl line s w) = (Command, s) /\
  files (snd (main_iter tbl line s w)) = files w /\
  exists panels,
    console (snd (main_iter tbl line s w)) = rev panels ++ console w /\
    match history s with
    | [] => panels = [Markup (lit "[yellow]No history yet.[/yellow]")]
    | _ :: _ =>
        length panels = length (history s) /\
        forall k q r,
          nth_error (history s) k = Some (q, r) ->
          nth_error panels k
          = Some (Panel (lit "[bold yellow]You:[/bold yellow] " ++ q ++ nl ++ nl
                         ++ lit "[bold green]Gemini:[/bold green] " ++ r)
                        (lit "Exchange " ++ of_Z (Z.of_nat k + 1))
                        (lit "magenta"))
    end.
Proof.
  intros D F. unfold main_iter. rewrite D.
  destruct (history s) as [|[q0 r0] h] eqn:H.
  - repeat split. eexists. split; [|reflexivity]. reflexivity.
  - destruct (history_panels_accepted ((q0, r0) :: h) 1 w F)
      as [w' [E [C Fi]]].
    rewrite E. cbn [fst snd]. repeat split; [exact Fi|].
    exists (numbered_panels 1 ((q0, r0) :: h)). split; [exact C|]. split.
    + apply numbered_panels_length.
    + intros k q r X. rewrite (numbered_panels_nth _ 1 k q r X).
      replace (1 + Z.of_nat k) with (Z.of_nat k + 1) by lia. reflexivity.
Qed.

Lemma history_is_listed_in_order_witness :
  exists panels,
    console (snd (main_iter Fixture.ascii_only (lit "/history")
                    {| bot := Fixture.flash; last_reply := Some (lit "pong");
                       history := [(lit "ping", lit "pong")] |}
                    (Fixture.fresh (fun _ => Failed []))))
    = rev panels ++ [] /\
    length panels = 1%nat /\
    nth_error panels 0
    = Some (Panel (lit "[bold yellow]You:[/bold yellow] " ++ lit "ping" ++ nl ++ nl
                   ++ lit "[bold green]Gemini:[/bold green] " ++ lit "pong")
                  (lit "Exchange " ++ of_Z (Z.of_nat 0 + 1))
                  (lit "magenta")).
Proof.
  destruct (history_is_listed_in_order Fixture.ascii_only (lit "/history")
              {| bot := Fixture.flash; last_reply := Some (lit "pong");
                 history := [(lit "ping", lit "pong")] |}
              (Fixture.fresh (fun _ => Failed [])))
    as [_ [_ [panels [C [L N]]]]].
  - reflexivity.
  - repeat constructor.
  - exists panels. split; [exact C|]. split; [exact L|].
    apply (N 0%nat (lit "ping") (lit "pong")). reflexivity.
Defined.
